(** * Address formatter of libpostal's geodata scripts

    A shallow embedding of
    [scripts/geodata/address_formatting/formatter.py] (class
    [AddressFormatter]) and the properties of its rendering pipeline.

    Python byte strings are [string]; the caller's [components] dict is a
    [gmap string string] that is threaded through the calls that mutate
    it; exceptions are values of [outcome].  The collaborators that live
    outside the file (template engine, regular expressions, tokenizer,
    iteration order of a dict) are fields of one record, so every theorem
    below holds for all of them. *)

From Stdlib Require Import Ascii String List Bool Arith Lia.
From stdpp Require Import gmap strings list fin_maps.

(* ===================================================================== *)
(** ** Python string primitives                                           *)
(* ===================================================================== *)

Module Py.

Definition TAB : ascii := "009"%char.
Definition LF : ascii := "010"%char.
Definition CR : ascii := "013"%char.

(** [str.isspace] on one byte: space, \t, \n, \v, \f, \r. *)
Definition is_space (c : ascii) : bool := Ascii.is_space c.

Definition is_upper (c : ascii) : bool :=
  let n := nat_of_ascii c in (65 <=? n) && (n <=? 90).

Definition is_lower (c : ascii) : bool :=
  let n := nat_of_ascii c in (97 <=? n) && (n <=? 122).

Definition upper_char (c : ascii) : ascii :=
  if is_lower c then ascii_of_nat (nat_of_ascii c - 32) else c.

Definition lower_char (c : ascii) : ascii :=
  if is_upper c then ascii_of_nat (nat_of_ascii c + 32) else c.

Fixpoint map_chars (f : ascii -> ascii) (s : string) : string :=
  match s with
  | EmptyString => EmptyString
  | String c s' => String (f c) (map_chars f s')
  end.

(** [s.upper()] and the case folding of [re.I], on ASCII letters. *)
Definition upper (s : string) : string := map_chars upper_char s.
Definition lower (s : string) : string := map_chars lower_char s.

(** [s.startswith(p)]. *)
Fixpoint startswith (p s : string) : bool :=
  match p with
  | EmptyString => true
  | String a p' =>
      match s with
      | EmptyString => false
      | String b s' => if Ascii.eqb a b then startswith p' s' else false
      end
  end.

(** [needle in hay]. *)
Fixpoint contains (needle hay : string) : bool :=
  startswith needle hay ||
  match hay with
  | EmptyString => false
  | String _ hay' => contains needle hay'
  end.

(** [c in s] for a single character. *)
Fixpoint has_char (c : ascii) (s : string) : bool :=
  match s with
  | EmptyString => false
  | String a s' => Ascii.eqb a c || has_char c s'
  end.

(** [s.lstrip()], [s.rstrip()], [s.strip()]. *)
Fixpoint lstrip (s : string) : string :=
  match s with
  | EmptyString => EmptyString
  | String c s' => if is_space c then lstrip s' else s
  end.

Fixpoint rstrip (s : string) : string :=
  match s with
  | EmptyString => EmptyString
  | String c s' =>
      match rstrip s' with
      | EmptyString => if is_space c then EmptyString else String c EmptyString
      | r => String c r
      end
  end.

Definition strip (s : string) : string := rstrip (lstrip s).

(** [s.rstrip('\n')]: only trailing line feeds go. *)
Fixpoint rstrip_char (x : ascii) (s : string) : string :=
  match s with
  | EmptyString => EmptyString
  | String c s' =>
      match rstrip_char x s' with
      | EmptyString => if Ascii.eqb c x then EmptyString else String c EmptyString
      | r => String c r
      end
  end.

(** [sep.join(parts)]. *)
Fixpoint join (sep : string) (parts : list string) : string :=
  match parts with
  | [] => EmptyString
  | [p] => p
  | p :: ps => p +:+ sep +:+ join sep ps
  end.

(** Puts a character in front of the first part of a split. *)
Definition push_char (c : ascii) (parts : list string) : list string :=
  match parts with
  | [] => [String c EmptyString]
  | p :: ps => String c p :: ps
  end.

(** [s.split(sep)] for a non-empty separator: occurrences are taken
    leftmost first and do not overlap.  [skip] counts the characters of a
    separator that has just been recognised and is still being passed. *)
Fixpoint split_from (sep : string) (skip : nat) (s : string) : list string :=
  match s with
  | EmptyString => [EmptyString]
  | String c s' =>
      match skip with
      | S k => split_from sep k s'
      | O =>
          if startswith sep s
          then EmptyString :: split_from sep (String.length sep - 1) s'
          else push_char c (split_from sep 0 s')
      end
  end.

Definition split (sep s : string) : list string := split_from sep 0 s.

(** [s.replace(pat, rep)], which is also [re.sub(pat, rep, s)] when [pat]
    has no regular-expression operator and [rep] no group reference. *)
Fixpoint replace_from (pat rep : string) (skip : nat) (s : string) : string :=
  match s with
  | EmptyString => EmptyString
  | String c s' =>
      match skip with
      | S k => replace_from pat rep k s'
      | O =>
          if startswith pat s
          then rep +:+ replace_from pat rep (String.length pat - 1) s'
          else String c (replace_from pat rep 0 s')
      end
  end.

Definition replace (pat rep s : string) : string := replace_from pat rep 0 s.

(** [s.split()]: the maximal runs of non-space characters. *)
Fixpoint split_ws_from (cur : option string) (s : string) : list string :=
  match s with
  | EmptyString => match cur with Some w => [w] | None => [] end
  | String c s' =>
      if is_space c
      then match cur with
           | Some w => w :: split_ws_from None s'
           | None => split_ws_from None s'
           end
      else split_ws_from
             (Some (match cur with Some w => w +:+ String c EmptyString
                                 | None => String c EmptyString end)) s'
  end.

Definition split_ws (s : string) : list string := split_ws_from None s.

(** [s.rsplit(c, 1)] when it has two parts: the text before and after the
    last [c].  [None] stands for the one-element list of a string without
    [c]. *)
Fixpoint rsplit1 (c : ascii) (s : string) : option (string * string) :=
  match s with
  | EmptyString => None
  | String a s' =>
      match rsplit1 c s' with
      | Some (l, r) => Some (String a l, r)
      | None => if Ascii.eqb a c then Some (EmptyString, s') else None
      end
  end.

(** [re.split] on the pattern [[\r\n]+[\s\r\n]*]: a delimiter starts at a
    line break and takes all the white space that follows it. *)
Definition is_newline (c : ascii) : bool := Ascii.eqb c LF || Ascii.eqb c CR.

Fixpoint split_lines_from (in_delim : bool) (s : string) : list string :=
  match s with
  | EmptyString => [EmptyString]
  | String c s' =>
      if in_delim
      then if is_space c then split_lines_from true s'
           else push_char c (split_lines_from false s')
      else if is_newline c then EmptyString :: split_lines_from true s'
           else push_char c (split_lines_from false s')
  end.

Definition split_lines (s : string) : list string := split_lines_from false s.

(** [s[start:stop]] for indices that are not negative. *)
Definition slice (start stop : nat) (s : string) : string :=
  String.substring start (stop - start) s.

(** [l[start:stop]] on a list. *)
Definition slice_list {A} (start stop : nat) (l : list A) : list A :=
  take (stop - start) (drop start l).

End Py.

(* ===================================================================== *)
(** ** Exceptions and the mutable component mapping                       *)
(* ===================================================================== *)

(** The exceptions of the formatter's own statements, and an exception
    that comes out of a library call, by the name of its class. *)
Inductive exn : Type :=
| TypeError | KeyError | ValueError | AttributeError
| LibraryError (name : string).

Inductive outcome (A : Type) : Type :=
| Returned (a : A)
| Raised (e : exn).
Arguments Returned {A} a.
Arguments Raised {A} e.

#[global] Instance exn_eq_dec : EqDecision exn.
Proof. solve_decision. Defined.

#[global] Instance outcome_ret : MRet outcome := fun A a => Returned a.
#[global] Instance outcome_bind : MBind outcome := fun A B f m =>
  match m with
  | Returned a => f a
  | Raised e => Raised e
  end.

(** The caller's dict: canonical or raw field name to text. *)
Abbreviation components := (gmap string string).

(** A computation that may read and mutate the caller's dict and may
    raise: the final dict is reported in both cases. *)
Definition Mut (A : Type) : Type := components -> outcome A * components.

#[global] Instance Mut_ret : MRet Mut := fun A a σ => (Returned a, σ).
#[global] Instance Mut_bind : MBind Mut := fun A B f m σ =>
  match m σ with
  | (Returned a, σ') => f a σ'
  | (Raised e, σ') => (Raised e, σ')
  end.

Definition raise {A} (e : exn) : Mut A := fun σ => (Raised e, σ).
Definition lift {A} (o : outcome A) : Mut A := fun σ => (o, σ).
Definition gets {A} (f : components -> A) : Mut A := fun σ => (Returned (f σ), σ).

(** [components.pop(k)]. *)
Definition dict_pop (k : string) : Mut string := fun σ =>
  match σ !! k with
  | Some v => (Returned v, delete k σ)
  | None => (Raised KeyError, σ)
  end.

(** [components[k]]. *)
Definition dict_getitem (k : string) : Mut string := fun σ =>
  match σ !! k with
  | Some v => (Returned v, σ)
  | None => (Raised KeyError, σ)
  end.

(** [components[k] = v]. *)
Definition dict_setitem (k v : string) : Mut unit := fun σ =>
  (Returned tt, <[k := v]> σ).

(** [for x in xs: body(x)]. *)
Fixpoint for_each {A} (xs : list A) (body : A -> Mut unit) : Mut unit :=
  match xs with
  | [] => mret tt
  | x :: xs' => body x ≫= fun _ => for_each xs' body
  end.

(* ===================================================================== *)
(** ** Collaborators outside the file                                     *)
(* ===================================================================== *)

(** Token categories of [postal.text.tokenize.token_types] that the
    formatter distinguishes. *)
Inductive token_type : Type := WORD | COMMA | HYPHEN | PUNCT | WHITESPACE.

#[global] Instance token_type_eq_dec : EqDecision token_type.
Proof. solve_decision. Defined.

(** What the formatter imports: [dict.keys] (any order over the keys of
    the dict); [re.sub], which returns the rewritten text or raises (a
    pattern or a replacement it cannot compile); [pystache.render] (with
    the optional [first] lambda); [tokenize_raw], which yields (offset,
    length, category).

    A call of [pystache.render] either raises or returns a text:
    [pystache_raises] is the exception of the call that [render_template]
    makes for a template and the keyword arguments [**components], if
    there is one (a keyword that is also a parameter of the library's
    functions, a template that does not parse, an exception that leaves
    the [first] lambda), and [pystache_render] is the text that the call
    returns otherwise. *)
Record Collaborators : Type := {
  dict_keys : components -> list string;
  dict_keys_perm : forall m : components, dict_keys m ≡ₚ (map_to_list m).*1;
  re_sub : string -> string -> string -> outcome string;
  pystache_render : string -> components -> option (string -> string) -> string;
  pystache_raises : string -> components -> option exn;
  tokenize_raw : string -> list (nat * nat * token_type)
}.

(** Modelled from the spec: the second entry point of the tokenizer, "a
    simpler form producing (token-text, category) pairs"; the text of a
    token is the slice its offset and length delimit. *)
Definition tokenize (E : Collaborators) (s : string) : list (string * token_type) :=
  map (fun '(start, len, ty) => (Py.slice start (start + len) s, ty))
      (tokenize_raw E s).

(* ===================================================================== *)
(** ** The rule table                                                     *)
(* ===================================================================== *)

(** A mapping loaded from [worldwide.yaml]: the keys the formatter reads,
    and whether the mapping has any other key (such as [use_country]). *)
Record template_record : Type := {
  rec_address_template : option string;
  rec_replace : option (list (string * string));
  rec_postformat_replace : option (list (string * string));
  rec_other_keys : bool
}.

(** A value of the table is a mapping or a bare template string. *)
Inductive config_value : Type :=
| TemplateString (s : string)
| TemplateRecord (r : template_record).

Abbreviation rule_table := (gmap string config_value).

(** Truth value of a Python string, list, dict. *)
Definition truthy_string (s : string) : bool :=
  match s with EmptyString => false | _ => true end.

Definition truthy_dict (r : template_record) : bool :=
  bool_decide (is_Some (rec_address_template r)) ||
  bool_decide (is_Some (rec_replace r)) ||
  bool_decide (is_Some (rec_postformat_replace r)) ||
  rec_other_keys r.

Definition truthy (v : config_value) : bool :=
  match v with
  | TemplateString s => truthy_string s
  | TemplateRecord r => truthy_dict r
  end.

(** [template['address_template']]: indexing a string with a string is a
    [TypeError], a missing key of a dict a [KeyError]. *)
Definition getitem_address_template (v : config_value) : outcome string :=
  match v with
  | TemplateString _ => Raised TypeError
  | TemplateRecord r =>
      match rec_address_template r with
      | Some t => Returned t
      | None => Raised KeyError
      end
  end.

(** [template.get(key)] for the two rule lists: a string has no [get]. *)
Definition get_rules (field : template_record -> option (list (string * string)))
    (v : config_value) : outcome (option (list (string * string))) :=
  match v with
  | TemplateString _ => Raised AttributeError
  | TemplateRecord r => Returned (field r)
  end.

(* ===================================================================== *)
(** ** AddressFormatter                                                   *)
(* ===================================================================== *)

Definition separator_tag : string := "SEP".
Definition field_separator_tag : string := "FSEP".

Definition HOUSE : string := "house".
Definition HOUSE_NUMBER : string := "house_number".
Definition ROAD : string := "road".
Definition SUBURB : string := "suburb".
Definition CITY : string := "city".
Definition STATE : string := "state".
Definition STATE_DISTRICT : string := "state_district".
Definition POSTCODE : string := "postcode".
Definition COUNTRY : string := "country".

(** The class attribute [aliases], in the order of the source. *)
Definition aliases : list (string * string) :=
  [ ("name", HOUSE);
    ("addr:housename", HOUSE);
    ("addr:housenumber", HOUSE_NUMBER);
    ("addr:house_number", HOUSE_NUMBER);
    ("addr:street", ROAD);
    ("addr:city", CITY);
    ("addr:locality", CITY);
    ("addr:municipality", CITY);
    ("addr:hamlet", CITY);
    ("addr:suburb", SUBURB);
    ("addr:neighbourhood", SUBURB);
    ("addr:neighborhood", SUBURB);
    ("addr:district", SUBURB);
    ("addr:state", STATE);
    ("addr:province", STATE);
    ("addr:region", STATE);
    ("addr:postal_code", POSTCODE);
    ("addr:postcode", POSTCODE);
    ("addr:country", COUNTRY);
    ("street", ROAD);
    ("street_name", ROAD);
    ("residential", ROAD);
    ("hamlet", CITY);
    ("neighborhood", SUBURB);
    ("neighbourhood", SUBURB);
    ("city_district", SUBURB);
    ("state_code", STATE);
    ("country_name", COUNTRY);
    ("postal_code", POSTCODE);
    ("post_code", POSTCODE) ].

(** [self.aliases.get(k)]. *)
Fixpoint assoc_get (k : string) (l : list (string * string)) : option string :=
  match l with
  | [] => None
  | (a, c) :: l' => if String.eqb a k then Some c else assoc_get k l'
  end.

Definition aliases_get (k : string) : option string := assoc_get k aliases.

Definition MINIMAL_COMPONENT_KEYS : list (list string) :=
  [ [ROAD; HOUSE_NUMBER]; [ROAD; HOUSE]; [ROAD; POSTCODE] ].

(** [k in components]. *)
Definition dict_has (k : string) (m : components) : bool :=
  bool_decide (is_Some (m !! k)).

(** One turn of the loop of [replace_aliases]. *)
Definition replace_alias (k : string) : Mut unit :=
  let new_key := aliases_get k in
  present ← gets (fun σ => match new_key with
                           | Some c => dict_has c σ
                           | None => false
                           end);
  match new_key with
  | Some c =>
      if truthy_string c && negb present
      then v ← dict_pop k; dict_setitem c v
      else mret tt
  | None => mret tt
  end.

(** [post_suburb_keys.search(line)]: the alternation
    city|state|state_district|postcode|country, compiled with [re.I]. *)
Definition post_suburb_keys_search (line : string) : bool :=
  existsb (fun key => Py.contains key (Py.lower line))
          [CITY; STATE; STATE_DISTRICT; POSTCODE; COUNTRY].

Definition suburb_line : string := "{{{suburb}}}".

(** One turn of the loop of [add_suburb_tags]: what is appended to
    [new_components] for a line. *)
Definition add_suburb_tags_line (suburb_included : bool) (line : string) : list string :=
  let post_suburb := post_suburb_keys_search line in
  Py.rstrip_char Py.LF line ::
  (if Py.contains "road" line && negb suburb_included && negb post_suburb
   then [suburb_line] else []).

Definition add_suburb_tags (template : string) : string :=
  let suburb_included := Py.contains "suburb" template in
  let new_components :=
    fold_left (fun acc line => acc ++ add_suburb_tags_line suburb_included line)
              (Py.split (String Py.LF EmptyString) template) [] in
  Py.join (String Py.LF EmptyString) new_components.

(** One value of the table, as [load_config] rewrites it. *)
Definition load_config_value (value : config_value) : config_value :=
  match value with
  | TemplateRecord r =>
      TemplateRecord
        {| rec_address_template :=
             match rec_address_template r with
             | Some t => if truthy_string t then Some (add_suburb_tags t) else Some t
             | None => None
             end;
           rec_replace := rec_replace r;
           rec_postformat_replace :=
             match rec_postformat_replace r with
             | Some ((_ :: _) as rules) =>
                 Some (map (fun '(pattern, replacement) =>
                              (pattern, Py.replace "$" "\" replacement)) rules)
             | other => other
             end;
           rec_other_keys := rec_other_keys r |}
  | TemplateString s => TemplateString (add_suburb_tags s)
  end.

(** [load_config], from the parsed YAML document on. *)
Definition load_config (yaml : rule_table) : rule_table :=
  load_config_value <$> yaml.

(** [country_template]: the default argument [self.config['default']] is
    evaluated before the lookup. *)
Definition country_template (config : rule_table) (c : string) : outcome config_value :=
  match config !! "default" with
  | None => Raised KeyError
  | Some d => Returned (default d (config !! c))
  end.

Definition minimal_components (m : components) : bool :=
  existsb (fun component_list => forallb (fun c => dict_has c m) component_list)
          MINIMAL_COMPONENT_KEYS.

(** The three rewrites of [tag_template_separators], in order. *)
Definition tag_placeholder_comma (template : string) : string :=
  Py.replace "}," ("} ,/" +:+ separator_tag +:+ " ") template.
Definition tag_placeholder_hyphen (template : string) : string :=
  Py.replace "}-" ("} -/" +:+ separator_tag +:+ " ") template.
Definition tag_spaced_hyphen (template : string) : string :=
  Py.replace " - " (" -/" +:+ separator_tag +:+ " ") template.

Definition tag_template_separators (template : string) : string :=
  tag_spaced_hyphen (tag_placeholder_hyphen (tag_placeholder_comma template)).

Definition is_comma_or_hyphen (ty : token_type) : bool :=
  match ty with
  | COMMA | HYPHEN => true
  | _ => false
  end.

(** First loop of the untagged branch of [strip_component]; [start] is
    the value the variable holds when the loop is entered. *)
Fixpoint scan_start (start : nat) (tokens : list (nat * nat * token_type)) : nat :=
  match tokens with
  | [] => start
  | (token_start, token_length, token_type) :: rest =>
      if is_comma_or_hyphen token_type
      then scan_start (token_start + token_length) rest
      else token_start
  end.

(** Second loop, over [reversed(tokens)]. *)
Fixpoint scan_end (end_ : nat) (rtokens : list (nat * nat * token_type)) : nat :=
  match rtokens with
  | [] => end_
  | (token_start, token_length, token_type) :: rest =>
      if is_comma_or_hyphen token_type
      then scan_end token_start rest
      else token_start + token_length
  end.

(** First loop of the tagged branch: [i] is the index of the head of
    [tokens]; a token without [/] cannot be unpacked into two names. *)
Fixpoint scan_start_tagged (i start : nat) (tokens : list string) : outcome nat :=
  match tokens with
  | [] => Returned start
  | t :: rest =>
      match Py.rsplit1 "/" t with
      | None => Raised ValueError
      | Some (_, c) =>
          if String.eqb c separator_tag
          then scan_start_tagged (S i) (S i) rest
          else Returned i
      end
  end.

(** Second loop of the tagged branch, over [enumerate(reversed(tokens))]. *)
Fixpoint scan_end_tagged (num_tokens j end_ : nat) (rtokens : list string) : outcome nat :=
  match rtokens with
  | [] => Returned end_
  | t :: rest =>
      match Py.rsplit1 "/" t with
      | None => Raised ValueError
      | Some (_, c) =>
          if String.eqb c separator_tag
          then scan_end_tagged num_tokens (S j) (num_tokens - j - 1) rest
          else Returned (num_tokens - j)
      end
  end.

Definition strip_component_tagged (value : string) : outcome string :=
  let tokens := Py.split_ws value in
  start ← scan_start_tagged 0 0 tokens;
  let num_tokens := length tokens in
  end_ ← scan_end_tagged num_tokens 0 0 (rev tokens);
  mret (Py.join " " (Py.slice_list start end_ tokens)).

(** First-occurrence deduplication of [post_replacements], with its
    [seen] set. *)
Fixpoint dedup_seen (seen : gset string) (parts : list string) : list string :=
  match parts with
  | [] => []
  | component :: rest =>
      let component := Py.strip component in
      if bool_decide (component ∈ seen)
      then dedup_seen seen rest
      else component :: dedup_seen ({[component]} ∪ seen) rest
  end.

Section Formatter.

Variable E : Collaborators.
(** [self.splitter] and [self.config]. *)
Variable splitter : string.
Variable config : rule_table.

Definition replace_aliases : Mut unit :=
  ks ← gets (dict_keys E);
  for_each ks replace_alias.

Definition strip_component_untagged (value : string) : string :=
  let tokens := tokenize_raw E (Py.strip value) in
  Py.slice (scan_start 0 tokens) (scan_end 0 (rev tokens)) value.

Definition strip_component (value : string) (tagged : bool) : outcome string :=
  if tagged then strip_component_tagged value
  else Returned (strip_component_untagged value).

(** The lambda [render_first] of [render_template]. *)
Definition render_first (comps : components) (text : string) : string :=
  let text := pystache_render E text comps None in
  let splits := map Py.strip (Py.split "||" text) in
  default "" (head (filter (fun e => truthy_string e = true) splits)).

(** [map] of a function that may raise, left to right. *)
Fixpoint map_outcome {A B} (f : A -> outcome B) (l : list A) : outcome (list B) :=
  match l with
  | [] => Returned []
  | x :: l' => y ← f x; ys ← map_outcome f l'; mret (y :: ys)
  end.

(** [render_template].  Passing [first=...] beside a dict that has the
    key [first] gives the keyword twice, a [TypeError] of the call
    itself; any other exception of the call is the library's. *)
Definition render_template (template : string) (comps : components) (tagged : bool)
    : outcome string :=
  if dict_has "first" comps then Raised TypeError else
  match pystache_raises E template comps with
  | Some e => Raised e
  | None =>
      let output :=
        Py.strip (pystache_render E template comps (Some (render_first comps))) in
      let values := Py.split_lines output in
      let splitter' :=
        if negb tagged then splitter
        else " " +:+ Py.strip splitter +:+ "/" +:+ field_separator_tag +:+ " " in
      values ← map_outcome (fun val => strip_component val tagged) values;
      mret (Py.join splitter'
              (filter (fun val => truthy_string (Py.strip val) = true) values))
  end.

(** The loop [for regex, replacement in rules: text = re.sub(regex,
    replacement, text)]: every rule in list order, each on the result of
    the one before, up to the first call that raises. *)
Fixpoint apply_rules (rules : list (string * string)) (text : string) : outcome string :=
  match rules with
  | [] => Returned text
  | (regex, replacement) :: rules' =>
      text ← re_sub E regex replacement text;
      apply_rules rules' text
  end.

(** The inner loop of [apply_replacements] for one key: each turn
    rewrites the value by one rule and stores it under the key. *)
Fixpoint replace_value (key : string) (rules : list (string * string)) (value : string)
    : Mut unit :=
  match rules with
  | [] => mret tt
  | (regex, replacement) :: rules' =>
      value ← lift (re_sub E regex replacement value);
      dict_setitem key value ;;
      replace_value key rules' value
  end.

(** [apply_replacements]. *)
Definition apply_replacements (template : config_value) : Mut unit :=
  rules ← lift (get_rules rec_replace template);
  match rules with
  | None | Some [] => mret tt
  | Some rules =>
      ks ← gets (dict_keys E);
      for_each ks (fun key =>
        value ← dict_getitem key;
        replace_value key rules value)
  end.

(** The deduplication step of [post_replacements]: split, strip, keep
    first occurrences, join. *)
Definition dedup_components (text : string) : string :=
  Py.join splitter (dedup_seen ∅ (Py.split splitter text)).

Definition post_replacements (template : config_value) (text : string) : outcome string :=
  let text := dedup_components text in
  post_format_replacements ← get_rules rec_postformat_replace template;
  match post_format_replacements with
  | None | Some [] => mret text
  | Some rules => apply_rules rules text
  end.

(** The dict comprehension of [format_address] that tags every token of
    every value with the name of its component. *)
Definition tag_value (k v : string) : string :=
  Py.join " " (map (fun '(t, _) => Py.replace " " "" t +:+ "/" +:+ Py.replace " " "_" k)
                   (tokenize E v)).

Definition tag_components_dict (m : components) : components :=
  map_imap (fun k v => Some (tag_value k v)) m.

Definition format_address (country : string)
    (minimal_only tag_components replace_aliases_flag : bool) : Mut (option string) :=
  match config !! Py.upper country with
  | None => mret None
  | Some template =>
      if negb (truthy template) then mret None else
      template_text ← lift (getitem_address_template template);
      (if replace_aliases_flag then replace_aliases else mret tt) ;;
      enough ← gets minimal_components;
      if minimal_only && negb enough then mret None else
      apply_replacements template ;;
      comps ← gets id;
      let template_text :=
        if tag_components then tag_template_separators template_text else template_text in
      let comps := if tag_components then tag_components_dict comps else comps in
      text ← lift (render_template template_text comps tag_components);
      text ← lift (post_replacements template text);
      mret (Some text)
  end.

End Formatter.

(* ===================================================================== *)
(** ** A reference instance of the collaborators                          *)
(* ===================================================================== *)

(** The theorems below quantify over [Collaborators]; this instance only
    serves to run the model on concrete inputs. *)
Module Reference.

Definition is_punct (c : ascii) : bool := Py.has_char c ".;:!?()".

(** Closes the word that is being read, if any. *)
Definition flush (cur : option (nat * nat)) (rest : list (nat * nat * token_type))
    : list (nat * nat * token_type) :=
  match cur with
  | Some (start, len) => (start, len, WORD) :: rest
  | None => rest
  end.

(** Modelled from the spec: the tokenizer, which "classifies runs of
    characters (word, punctuation, comma, hyphen, whitespace)" and yields
    "(offset, length, category) triples".  A comma, a hyphen and any other
    punctuation mark is a token of its own, a run of other characters is
    a word, and white space separates tokens without being reported, as
    the spec's example of stripping [", - Main St -, "] needs. *)
Fixpoint scan_tokens (pos : nat) (cur : option (nat * nat)) (s : string)
    : list (nat * nat * token_type) :=
  match s with
  | EmptyString => flush cur []
  | String c s' =>
      if Py.is_space c then flush cur (scan_tokens (S pos) None s')
      else if Ascii.eqb c "," then flush cur ((pos, 1, COMMA) :: scan_tokens (S pos) None s')
      else if Ascii.eqb c "-" then flush cur ((pos, 1, HYPHEN) :: scan_tokens (S pos) None s')
      else if is_punct c then flush cur ((pos, 1, PUNCT) :: scan_tokens (S pos) None s')
      else scan_tokens (S pos)
             (Some (match cur with Some (start, len) => (start, S len) | None => (pos, 1) end))
             s'
  end.

Definition tokenize_raw (s : string) : list (nat * nat * token_type) :=
  scan_tokens 0 None s.

(** The text before the first occurrence of [stop], and the text after it. *)
Fixpoint take_until (stop s : string) : option (string * string) :=
  if Py.startswith stop s
  then Some (EmptyString, String.substring (String.length stop) (String.length s) s)
  else match s with
       | EmptyString => None
       | String c s' =>
           match take_until stop s' with
           | Some (before, after) => Some (String c before, after)
           | None => None
           end
       end.

Definition drop_chars (n : nat) (s : string) : string :=
  String.substring n (String.length s) s.

(** A stand-in for the rendering of [pystache.render] on the constructs
    the address templates use: [{{{name}}}] and [{{name}}] (substituted
    verbatim, a missing name as the empty string) and the section
    [{{#first}}] ... [{{/first}}], handed unrendered to the lambda when
    there is one. *)
Fixpoint render_fuel (fuel : nat) (template : string) (comps : components)
    (first : option (string -> string)) : string :=
  match fuel with
  | O => EmptyString
  | S fuel' =>
      if Py.startswith "{{#first}}" template then
        match take_until "{{/first}}" (drop_chars 10 template) with
        | Some (body, rest) =>
            match first with Some f => f body | None => EmptyString end
            +:+ render_fuel fuel' rest comps first
        | None => template
        end
      else if Py.startswith "{{{" template then
        match take_until "}}}" (drop_chars 3 template) with
        | Some (name, rest) =>
            default "" (comps !! Py.strip name) +:+ render_fuel fuel' rest comps first
        | None => template
        end
      else if Py.startswith "{{" template then
        match take_until "}}" (drop_chars 2 template) with
        | Some (name, rest) =>
            default "" (comps !! Py.strip name) +:+ render_fuel fuel' rest comps first
        | None => template
        end
      else
        match template with
        | EmptyString => EmptyString
        | String c rest => String c (render_fuel fuel' rest comps first)
        end
  end.

(** The keyword [context] is the second parameter of [pystache.render],
    not a name that the template can use. *)
Definition render (template : string) (comps : components)
    (first : option (string -> string)) : string :=
  render_fuel (S (String.length template)) template (delete "context" comps) first.

(** [dict.keys] in the order in which the map lists its entries. *)
Definition keys (m : components) : list string := (map_to_list m).*1.

(** The keyword arguments that [pystache.render(template, context=None,
    **kwargs)] and the [render(self, template, *context, **kwargs)] it
    calls cannot take beside their own parameters. *)
Definition raises (template : string) (comps : components) : option exn :=
  if dict_has "template" comps || dict_has "self" comps then Some TypeError else None.

(** Whether the parentheses of a pattern match; a backslash escapes the
    character behind it. *)
Fixpoint balanced (depth : nat) (escaped : bool) (pattern : string) : bool :=
  match pattern with
  | EmptyString => Nat.eqb depth 0 && negb escaped
  | String c pattern' =>
      if escaped then balanced depth false pattern'
      else if Ascii.eqb c "\" then balanced depth true pattern'
      else if Ascii.eqb c "(" then balanced (S depth) false pattern'
      else if Ascii.eqb c ")"
           then match depth with
                | O => false
                | S depth' => balanced depth' false pattern'
                end
      else balanced depth false pattern'
  end.

(** A stand-in for [re.sub]: a pattern with an unmatched parenthesis or
    a dangling backslash does not compile; any other pattern is taken as
    text without operators, for which [re.sub] is [str.replace]. *)
Definition sub (pattern repl s : string) : outcome string :=
  if balanced 0 false pattern then Returned (Py.replace pattern repl s)
  else Raised (LibraryError "sre_constants.error").

Definition collaborators : Collaborators :=
  Build_Collaborators keys (fun m => Permutation_refl (keys m)) sub render raises
                      tokenize_raw.

End Reference.

(* ===================================================================== *)
(** ** Definitions used to state the properties                           *)
(* ===================================================================== *)

(** The effect of one turn of the loop on a dict that holds the key. *)
Definition rename_step (σ : components) (k : string) : components :=
  match aliases_get k with
  | Some c =>
      if truthy_string c && negb (dict_has c σ)
      then match σ !! k with
           | Some v => <[c := v]> (delete k σ)
           | None => σ
           end
      else σ
  | None => σ
  end.

(** The loop as a fold of [rename_step]. *)
Definition rename_all (ks : list string) (σ : components) : components :=
  foldl rename_step σ ks.


(** The dict that [format_address] hands to [minimal_components]. *)
Definition normalized (E : Collaborators) (replace_aliases_flag : bool)
    (σ : components) : components :=
  if replace_aliases_flag then rename_all (dict_keys E σ) σ else σ.

(** The test of [add_suburb_tags] that decides whether a suburb line
    follows [line]. *)
Definition suburb_follows (template line : string) : bool :=
  Py.contains "road" line && negb (Py.contains "suburb" template)
  && negb (post_suburb_keys_search line).

(** A tagged token whose label is the separator tag. *)
Definition is_sep_token (t : string) : bool :=
  match Py.rsplit1 "/" t with
  | Some (_, c) => String.eqb c separator_tag
  | None => false
  end.

(** Length of the leading run of separator tokens. *)
Fixpoint leading_seps (tokens : list string) : nat :=
  match tokens with
  | [] => 0
  | t :: rest => if is_sep_token t then S (leading_seps rest) else 0
  end.

(** Deleting the separator labels, and deleting the spaces, with
    [str.replace]. *)
Definition erase_labels (s : string) : string :=
  Py.replace ("/" +:+ separator_tag) "" s.

Definition despace (s : string) : string := Py.replace " " "" s.

(** [labelled t u]: the text [u] is the text [t] with separator labels
    [/SEP] and spaces put in; no character of [t] is dropped, changed or
    moved, and nothing else is put in. *)
Inductive labelled : string -> string -> Prop :=
| labelled_nil : labelled "" ""
| labelled_keep (c : ascii) (t u : string) :
    labelled t u -> labelled (String c t) (String c u)
| labelled_space (t u : string) :
    labelled t u -> labelled t (String " " u)
| labelled_label (t u : string) :
    labelled t u -> labelled t (String "/" (String "S" (String "E" (String "P" u)))).

(** A value once all rules of a list have rewritten it; the value itself
    where a rule raises. *)
Definition rewritten (E : Collaborators) (rules : list (string * string))
    (value : string) : string :=
  match apply_rules E rules value with
  | Returned text => text
  | Raised _ => value
  end.

(** [rewrites E rules value]: no rule of the list raises on the value. *)
Definition rewrites (E : Collaborators) (rules : list (string * string))
    (value : string) : Prop :=
  exists text, apply_rules E rules value = Returned text.

(** [partly_rewritten E rules σ σ']: the dict [σ'] has the keys of [σ],
    and under each key the value of [σ] as the first rules of the list
    have rewritten it, for some number of them (none, some or all). *)
Definition partly_rewritten (E : Collaborators) (rules : list (string * string))
    (σ σ' : components) : Prop :=
  forall k,
    match σ !! k with
    | Some v => exists n text,
                  apply_rules E (take n rules) v = Returned text /\ σ' !! k = Some text
    | None => σ' !! k = None
    end.

(** A token that the loops of the untagged branch step over. *)
Definition is_separator (token : nat * nat * token_type) : bool :=
  is_comma_or_hyphen token.2.

(** A text with a lower-case ASCII letter. *)
Fixpoint has_lower (s : string) : bool :=
  match s with
  | EmptyString => false
  | String c s' => Py.is_lower c || has_lower s'
  end.

(** A value that [render_template] may hand to [strip_component]: no
    white space in front, no line break inside. *)
Definition line_value (v : string) : Prop :=
  Py.lstrip v = v /\ Py.has_char Py.LF v = false /\ Py.has_char Py.CR v = false.

(** A text without white space. *)
Fixpoint no_space (s : string) : bool :=
  match s with
  | EmptyString => true
  | String c s' => negb (Py.is_space c) && no_space s'
  end.

(** A dict supplies a canonical name when it has it as a key or has a
    raw key of which it is the alias. *)
Definition supplies (σ : components) (c : string) : Prop :=
  is_Some (σ !! c) \/ exists k, aliases_get k = Some c /\ is_Some (σ !! k).

(* ===================================================================== *)
(** ** Concrete inputs                                                    *)
(* ===================================================================== *)

Module Demo.

Definition NL : string := String Py.LF EmptyString.

Definition only_template (t : string) : template_record :=
  {| rec_address_template := Some t;
     rec_replace := None;
     rec_postformat_replace := None;
     rec_other_keys := false |}.

(** A record such as the ones that only redirect to another country. *)
Definition use_country_record : template_record :=
  {| rec_address_template := None;
     rec_replace := None;
     rec_postformat_replace := None;
     rec_other_keys := true |}.

Definition es_template : string :=
  "{{{house}}}" +:+ NL +:+
  "{{{road}}}, {{{house_number}}}" +:+ NL +:+
  "{{{postcode}}} {{#first}} {{{city}}} || {{{town}}} {{/first}}" +:+ NL +:+
  "{{{country}}}".

(** The record of "ES" once [load_config] has rewritten it. *)
Definition es_record : template_record :=
  only_template (add_suburb_tags es_template).

Definition default_record : template_record :=
  only_template ("{{{road}}} {{{house_number}}}" +:+ NL +:+ "{{{city}}}").

(** A document with a default record, a full record, a bare template
    string and a record without a template. *)
Definition yaml : rule_table :=
  <["default" := TemplateRecord default_record]>
  (<["ES" := TemplateRecord (only_template es_template)]>
  (<["XX" := TemplateString "{{{road}}}"]>
  (<["AS" := TemplateRecord use_country_record]> ∅))).

Definition config : rule_table := load_config yaml.

(** The components of the usage example in the docstring of the class. *)
Definition madrid : components :=
  list_to_map [("house", "Anticafe"); ("addr:housenumber", "2");
               ("addr:street", "Calle de la Union"); ("addr:postcode", "28013");
               ("addr:city", "Madrid")].

Definition paris : components := {["addr:city" := "Paris"]}.

Definition main_street : components :=
  <["road" := "Main St"]> (<["house_number" := "5"]> ∅).

Definition springfield : components :=
  <["road" := "Main St"]> (<["city" := "Springfield"]> ∅).

(** A raw key beside its canonical name. *)
Definition cafe : components :=
  <["name" := "Cafe"]> (<["house" := "Old Mill"]> ∅).

(** A record with replacement rules, and one whose second rule is a
    pattern that does not compile. *)
Definition abbreviating_record : template_record :=
  {| rec_address_template := Some "{{{road}}} {{{house_number}}}";
     rec_replace := Some [("Street", "St"); ("Saint", "St")];
     rec_postformat_replace := None;
     rec_other_keys := false |}.

Definition broken_record : template_record :=
  {| rec_address_template := Some "{{{road}}} {{{house_number}}}";
     rec_replace := Some [("Street", "St"); ("(", "")];
     rec_postformat_replace := None;
     rec_other_keys := false |}.

Definition rules_config : rule_table :=
  <["GB" := TemplateRecord abbreviating_record]>
  (<["ZZ" := TemplateRecord broken_record]> ∅).

Definition saint_street : components :=
  <["road" := "Saint John Street"]> (<["house_number" := "5"]> ∅).

Definition format (cfg : rule_table) (country : string)
    (minimal_only tag_components replace_aliases_flag : bool) (σ : components) :=
  format_address Reference.collaborators " | " cfg country
                 minimal_only tag_components replace_aliases_flag σ.

End Demo.

(* ===================================================================== *)
(** ** Alias normalization                                                *)
(* ===================================================================== *)

Lemma dict_has_true (k : string) (m : components) :
  dict_has k m = true <-> is_Some (m !! k).
Proof. unfold dict_has. apply bool_decide_eq_true. Qed.

Lemma dict_has_false (k : string) (m : components) :
  dict_has k m = false <-> m !! k = None.
Proof.
  unfold dict_has. rewrite bool_decide_eq_false, eq_None_not_Some. reflexivity.
Qed.

(** Canonical names are not themselves aliases, and none is empty. *)
Lemma aliases_canonical (k c : string) :
  aliases_get k = Some c -> aliases_get c = None /\ truthy_string c = true.
Proof.
  unfold aliases_get, aliases. cbn [assoc_get].
  repeat (destruct (String.eqb _ k);
          [intros [= <-]; split; reflexivity|]).
  discriminate.
Qed.

Lemma replace_alias_present (k : string) (σ : components) :
  is_Some (σ !! k) -> replace_alias k σ = (Returned tt, rename_step σ k).
Proof.
  intros [v Hv]. unfold replace_alias, rename_step.
  destruct (aliases_get k) as [c|]; [|reflexivity].
  unfold mbind, Mut_bind, gets.
  destruct (truthy_string c && negb (dict_has c σ)); [|reflexivity].
  unfold dict_pop. rewrite Hv. reflexivity.
Qed.

(** A step only removes the visited key and only adds its canonical name,
    when that was absent. *)
Lemma rename_step_lookup (σ : components) (j k : string) :
  rename_step σ j !! k = σ !! k \/
  (k = j /\ is_Some (aliases_get j) /\ rename_step σ j !! k = None) \/
  (aliases_get j = Some k /\ σ !! k = None /\ rename_step σ j !! k = σ !! j /\ k <> j).
Proof.
  unfold rename_step.
  destruct (aliases_get j) as [c|] eqn:Hc; [|by left].
  destruct (truthy_string c && negb (dict_has c σ)) eqn:Hb; [|by left].
  apply andb_true_iff in Hb as [_ Hn]. apply negb_true_iff, dict_has_false in Hn.
  destruct (σ !! j) as [v|] eqn:Hj; [|by left].
  assert (c <> j) by (intros ->; congruence).
  destruct (decide (k = c)) as [->|Hkc].
  - right; right. rewrite lookup_insert_eq. done.
  - rewrite lookup_insert_ne by done.
    destruct (decide (k = j)) as [->|Hkj].
    + right; left. rewrite lookup_delete_eq. eauto.
    + left. by rewrite lookup_delete_ne.
Qed.

Lemma rename_step_keeps (σ : components) (j k : string) (v : string) :
  σ !! k = Some v -> k <> j -> rename_step σ j !! k = Some v.
Proof.
  intros Hk Hne.
  destruct (rename_step_lookup σ j k) as [->|[(-> & _)|(_ & Hn & _)]];
    [done|done|congruence].
Qed.

Lemma rename_step_no_alias (σ : components) (j k : string) (v : string) :
  aliases_get k = None -> σ !! k = Some v -> rename_step σ j !! k = Some v.
Proof.
  intros Ha Hk.
  destruct (rename_step_lookup σ j k) as [->|[(-> & [c Hc] & _)|(_ & Hn & _)]];
    [done|congruence|congruence].
Qed.

Lemma rename_step_absent_alias (σ : components) (j k c : string) :
  aliases_get k = Some c -> σ !! k = None -> rename_step σ j !! k = None.
Proof.
  intros Ha Hk.
  destruct (rename_step_lookup σ j k) as [->|[(_ & _ & ->)|(Hj & _)]]; [done|done|].
  apply aliases_canonical in Hj as [Hj _]. congruence.
Qed.

Lemma rename_step_absent_other (σ : components) (j c : string) :
  aliases_get j <> Some c -> aliases_get c = None -> σ !! c = None ->
  rename_step σ j !! c = None.
Proof.
  intros Hj Hc Hn.
  destruct (rename_step_lookup σ j c) as [->|[(_ & _ & ->)|(Hj' & _)]]; done.
Qed.

Lemma rename_all_cons (j : string) (ks : list string) (σ : components) :
  rename_all (j :: ks) σ = rename_all ks (rename_step σ j).
Proof. reflexivity. Qed.

Lemma for_each_replace_alias (ks : list string) (σ : components) :
  NoDup ks -> (forall k, k ∈ ks -> is_Some (σ !! k)) ->
  for_each ks replace_alias σ = (Returned tt, rename_all ks σ).
Proof.
  revert σ. induction ks as [|j ks IH]; intros σ Hnd Hin; [reflexivity|].
  apply NoDup_cons in Hnd as [Hj Hnd].
  cbn [for_each]. unfold mbind, Mut_bind.
  rewrite replace_alias_present by (apply Hin; left).
  cbn. apply IH; [done|].
  intros k Hk. destruct (Hin k) as [v Hv]; [by right|].
  exists v. apply rename_step_keeps; [done|]. intros ->. done.
Qed.

Lemma dict_keys_NoDup (E : Collaborators) (m : components) : NoDup (dict_keys E m).
Proof. rewrite dict_keys_perm. apply NoDup_fst_map_to_list. Qed.

Lemma dict_keys_elem (E : Collaborators) (m : components) (k : string) :
  k ∈ dict_keys E m <-> is_Some (m !! k).
Proof.
  rewrite dict_keys_perm, list_elem_of_fmap. split.
  - intros [[k' v] [-> Hkv]]. apply elem_of_map_to_list in Hkv. eauto.
  - intros [v Hv]. exists (k, v). split; [done|]. by apply elem_of_map_to_list.
Qed.

(** [replace_aliases] never raises: every key of the snapshot is still in
    the dict when its turn comes. *)
Lemma replace_aliases_run (E : Collaborators) (σ : components) :
  replace_aliases E σ = (Returned tt, rename_all (dict_keys E σ) σ).
Proof.
  unfold replace_aliases, gets. cbn.
  apply for_each_replace_alias; [apply dict_keys_NoDup|].
  intros k. apply dict_keys_elem.
Qed.

Lemma rename_all_no_alias (ks : list string) (σ : components) (k v : string) :
  aliases_get k = None -> σ !! k = Some v -> rename_all ks σ !! k = Some v.
Proof.
  revert σ. induction ks as [|j ks IH]; intros σ Ha Hk; [done|].
  rewrite rename_all_cons. apply IH; [done|]. by apply rename_step_no_alias.
Qed.

Lemma rename_all_absent_alias (ks : list string) (σ : components) (k c : string) :
  aliases_get k = Some c -> σ !! k = None -> rename_all ks σ !! k = None.
Proof.
  revert σ. induction ks as [|j ks IH]; intros σ Ha Hk; [done|].
  rewrite rename_all_cons. apply IH; [done|]. by eapply rename_step_absent_alias.
Qed.

(** A raw key whose canonical name is present is never touched. *)
Lemma rename_all_canonical_present (ks : list string) (σ : components) (k c v w : string) :
  aliases_get k = Some c -> σ !! k = Some v -> σ !! c = Some w ->
  rename_all ks σ !! k = Some v /\ rename_all ks σ !! c = Some w.
Proof.
  intros Ha. pose proof (aliases_canonical _ _ Ha) as [Hc _].
  revert σ. induction ks as [|j ks IH]; intros σ Hk Hw; [done|].
  rewrite rename_all_cons. apply IH.
  - destruct (decide (k = j)) as [<-|Hne]; [|by apply rename_step_keeps].
    unfold rename_step. rewrite Ha.
    assert (dict_has c σ = true) as -> by (apply dict_has_true; eauto).
    by rewrite andb_false_r.
  - by apply rename_step_no_alias.
Qed.

(** A raw key is renamed or kept; its value is never lost. *)
Lemma rename_all_renamed_or_kept (ks : list string) (σ : components) (k c v : string) :
  aliases_get k = Some c -> σ !! k = Some v ->
  rename_all ks σ !! k = Some v \/
  (rename_all ks σ !! k = None /\ rename_all ks σ !! c = Some v).
Proof.
  intros Ha. pose proof (aliases_canonical _ _ Ha) as [Hc Ht].
  revert σ. induction ks as [|j ks IH]; intros σ Hk; [by left|].
  rewrite !rename_all_cons. destruct (decide (k = j)) as [<-|Hne].
  - destruct (σ !! c) as [w|] eqn:Hw.
    + left. exact (proj1 (rename_all_canonical_present (k :: ks) σ k c v w Ha Hk Hw)).
    + right. assert (rename_step σ k = <[c := v]> (delete k σ)) as ->.
      { unfold rename_step. rewrite Ha, Ht, Hk.
        assert (dict_has c σ = false) as -> by by apply dict_has_false. done. }
      split.
      * eapply rename_all_absent_alias; [done|].
        rewrite lookup_insert_ne by (intros ->; congruence). apply lookup_delete_eq.
      * apply rename_all_no_alias; [done|]. apply lookup_insert_eq.
  - apply IH. by apply rename_step_keeps.
Qed.

(** The first key visited among the raw keys of an absent canonical name
    is renamed. *)
Lemma rename_all_first (pre post : list string) (σ : components) (k c v : string) :
  aliases_get k = Some c ->
  (forall j, j ∈ pre -> aliases_get j <> Some c) ->
  σ !! c = None -> σ !! k = Some v ->
  rename_all (pre ++ k :: post) σ !! k = None /\
  rename_all (pre ++ k :: post) σ !! c = Some v.
Proof.
  intros Ha. pose proof (aliases_canonical _ _ Ha) as [Hc Ht].
  revert σ. induction pre as [|j pre IH]; intros σ Hpre Hn Hk.
  - cbn [app]. rewrite rename_all_cons.
    assert (rename_step σ k = <[c := v]> (delete k σ)) as ->.
    { unfold rename_step. rewrite Ha, Ht, Hk.
      assert (dict_has c σ = false) as -> by by apply dict_has_false. done. }
    split.
    + eapply rename_all_absent_alias; [done|].
      rewrite lookup_insert_ne by (intros ->; congruence). apply lookup_delete_eq.
    + apply rename_all_no_alias; [done|]. apply lookup_insert_eq.
  - cbn [app]. rewrite rename_all_cons.
    assert (aliases_get j <> Some c) as Hj by (apply Hpre; left).
    apply IH.
    + intros i Hi. apply Hpre. by right.
    + by apply rename_step_absent_other.
    + apply rename_step_keeps; [done|]. intros ->. done.
Qed.

(* ===================================================================== *)
(** ** Template lookup and the minimal components                          *)
(* ===================================================================== *)

Section FormatAddress.

Variable E : Collaborators.
Variable splitter : string.
Variable config : rule_table.

Lemma format_address_absent country mo tc ra σ :
  config !! Py.upper country = None ->
  format_address E splitter config country mo tc ra σ = (Returned None, σ).
Proof. intros H. unfold format_address. rewrite H. reflexivity. Qed.

Lemma format_address_falsy country t mo tc ra σ :
  config !! Py.upper country = Some t -> truthy t = false ->
  format_address E splitter config country mo tc ra σ = (Returned None, σ).
Proof. intros H Ht. unfold format_address. rewrite H, Ht. reflexivity. Qed.

Lemma format_address_bare_string country s mo tc ra σ :
  config !! Py.upper country = Some (TemplateString s) -> s <> "" ->
  format_address E splitter config country mo tc ra σ = (Raised TypeError, σ).
Proof.
  intros H Hs. unfold format_address. rewrite H.
  destruct s; [done|]. reflexivity.
Qed.

Lemma format_address_no_template country r mo tc ra σ :
  config !! Py.upper country = Some (TemplateRecord r) ->
  truthy_dict r = true -> rec_address_template r = None ->
  format_address E splitter config country mo tc ra σ = (Raised KeyError, σ).
Proof.
  intros H Ht Hn. unfold format_address. rewrite H. cbn [truthy]. rewrite Ht.
  cbn [negb]. unfold getitem_address_template. rewrite Hn. reflexivity.
Qed.

Lemma format_address_minimal country r t tc ra σ :
  config !! Py.upper country = Some (TemplateRecord r) ->
  rec_address_template r = Some t ->
  minimal_components (normalized E ra σ) = false ->
  format_address E splitter config country true tc ra σ
  = (Returned None, normalized E ra σ).
Proof.
  intros H Ht Hg. unfold format_address. rewrite H.
  assert (truthy (TemplateRecord r) = true) as ->.
  { cbn. unfold truthy_dict. rewrite Ht. reflexivity. }
  cbn [negb]. unfold getitem_address_template. rewrite Ht.
  unfold mbind, Mut_bind, lift, gets.
  destruct ra; cbn [normalized] in *.
  - rewrite replace_aliases_run. rewrite Hg. reflexivity.
  - unfold mret, Mut_ret. rewrite Hg. reflexivity.
Qed.

End FormatAddress.

(** C1 (as amended): a country code whose upper-cased form is not a key of
    the rule table makes [format_address] return no-result, with the
    caller's dict untouched, whatever the switches; it never raises and
    never consults the [default] record.  The fall-back to [default] is
    what [country_template] computes, and [format_address] does not call
    it. *)
Theorem format_address_unknown_country
    (E : Collaborators) (splitter : string) (config : rule_table)
    (country : string) (mo tc ra : bool) (σ : components) :
  config !! Py.upper country = None ->
  format_address E splitter config country mo tc ra σ = (Returned None, σ) /\
  (forall d, config !! "default" = Some d ->
             country_template config (Py.upper country) = Returned d).
Proof.
  intros H. split; [by apply format_address_absent|].
  intros d Hd. unfold country_template. rewrite Hd, H. reflexivity.
Qed.

Lemma format_address_unknown_country_witness :
  Demo.format Demo.config "zz" true true true Demo.main_street
  = (Returned None, Demo.main_street) /\
  (forall d, Demo.config !! "default" = Some d ->
             country_template Demo.config (Py.upper "zz") = Returned d).
Proof.
  apply (format_address_unknown_country Reference.collaborators " | " Demo.config
           "zz" true true true Demo.main_street).
  vm_compute. reflexivity.
Defined.

(** C1 as stated fails: the table has a [default] record, the code "zz"
    is unknown, and the result is no-result, although the same call
    against a table that gives "ZZ" the default record returns a string. *)
Lemma unknown_country_does_not_fall_back :
  Demo.config !! "ZZ" = None /\
  Demo.config !! "default" = Some (load_config_value (TemplateRecord Demo.default_record)) /\
  fst (Demo.format Demo.config "zz" true false true Demo.main_street) = Returned None /\
  fst (Demo.format (<["ZZ" := TemplateRecord Demo.default_record]> Demo.config)
                   "zz" true false true Demo.main_street)
  = Returned (Some "Main St 5").
Proof. repeat split; vm_compute; reflexivity. Qed.

(** [minimal_components]: one of the three pairs is in the dict in
    full. *)
Lemma minimal_components_iff (m : components) :
  minimal_components m = true <->
  (is_Some (m !! ROAD) /\ is_Some (m !! HOUSE_NUMBER)) \/
  (is_Some (m !! ROAD) /\ is_Some (m !! HOUSE)) \/
  (is_Some (m !! ROAD) /\ is_Some (m !! POSTCODE)).
Proof.
  unfold minimal_components, MINIMAL_COMPONENT_KEYS. cbn [existsb forallb].
  rewrite !orb_true_iff, !andb_true_iff, !dict_has_true. intuition congruence.
Qed.

(** With [minimal_only] on and a record that has an address template, a dict
    without any of the pairs (after alias normalization, when that is
    on) gives no-result. *)
Lemma format_address_without_pairs
    (E : Collaborators) (splitter : string) (config : rule_table)
    (country : string) (r : template_record) (t : string) (tc ra : bool) (σ : components) :
  config !! Py.upper country = Some (TemplateRecord r) ->
  rec_address_template r = Some t ->
  ~ ((is_Some (normalized E ra σ !! ROAD) /\ is_Some (normalized E ra σ !! HOUSE_NUMBER)) \/
     (is_Some (normalized E ra σ !! ROAD) /\ is_Some (normalized E ra σ !! HOUSE)) \/
     (is_Some (normalized E ra σ !! ROAD) /\ is_Some (normalized E ra σ !! POSTCODE))) ->
  fst (format_address E splitter config country true tc ra σ) = Returned None.
Proof.
  intros H Ht Hn. erewrite format_address_minimal; [done|done|done|].
  apply not_true_is_false. by rewrite minimal_components_iff.
Qed.

(** C3 at the failing inputs: the dict holds a city only, so that no pair
    is present, with or without alias normalization; the table maps "XX"
    to a bare template string, or "AS" to a mapping without address
    template; the call with [minimal_only] on raises [TypeError], or
    [KeyError], before [minimal_components] is consulted, for every
    collaborator and every other switch. *)
Theorem format_address_raises_before_minimal_components
    (E : Collaborators) (splitter : string) (tc ra : bool) :
  minimal_components (normalized E ra {["city" := "Paris"]}) = false /\
  format_address E splitter {["XX" := TemplateString "{{{road}}}"]} "xx"
                 true tc ra {["city" := "Paris"]}
  = (Raised TypeError, {["city" := "Paris"]}) /\
  format_address E splitter {["AS" := TemplateRecord Demo.use_country_record]} "as"
                 true tc ra {["city" := "Paris"]}
  = (Raised KeyError, {["city" := "Paris"]}).
Proof.
  split; [|split].
  - unfold normalized. destruct ra; [|vm_compute; reflexivity].
    apply not_true_is_false. rewrite minimal_components_iff.
    assert (rename_all (dict_keys E {["city" := "Paris"]}) {["city" := "Paris"]} !! ROAD = None)
      as Hroad.
    { assert (forall ks (σ : components), σ !! ROAD = None ->
                Forall (fun j => j = "city") ks ->
                rename_all ks σ !! ROAD = None) as Hgen.
      { induction ks as [|j ks IH]; intros σ Hr Hks; [done|].
        apply Forall_cons in Hks as [-> Hks]. rewrite rename_all_cons.
        assert (rename_step σ "city" = σ) as -> by reflexivity.
        by apply IH. }
      apply Hgen; [reflexivity|].
      apply Forall_forall. intros j Hj. apply dict_keys_elem in Hj as [v Hv].
      by apply lookup_singleton_Some in Hv as [<- _]. }
    rewrite Hroad. intros [[[? [=]] _]|[[[? [=]] _]|[[? [=]] _]]].
  - apply format_address_bare_string with (s := "{{{road}}}"); [vm_compute; reflexivity|done].
  - apply format_address_no_template with (r := Demo.use_country_record);
      [vm_compute; reflexivity|reflexivity|reflexivity].
Qed.

(** C6 (as amended): [replace_aliases] returns, and for every entry
    [k -> v] of the dict it leaves, whatever the order of the keys:
    an entry without alias as it was; an entry whose canonical name is
    already a key as it was, under its raw key (it is not dropped), the
    canonical entry keeping its value; a raw entry of an absent
    canonical name under that name, the raw key being removed, when it
    is the first of its canonical name in the order of the keys, and so
    when it is the only one.  In every case the value stays in the dict,
    under the raw key or under the canonical name. *)
Theorem replace_aliases_spec (E : Collaborators) (m : components) (k v : string) :
  m !! k = Some v ->
  exists m', replace_aliases E m = (Returned tt, m') /\
    match aliases_get k with
    | None => m' !! k = Some v
    | Some c =>
        (is_Some (m !! c) -> m' !! k = Some v /\ m' !! c = m !! c) /\
        (m !! c = None ->
         forall pre post, dict_keys E m = pre ++ k :: post ->
         (forall j, j ∈ pre -> aliases_get j <> Some c) ->
         m' !! k = None /\ m' !! c = Some v) /\
        (m !! c = None ->
         (forall k2, k2 <> k -> is_Some (m !! k2) -> aliases_get k2 <> Some c) ->
         m' !! k = None /\ m' !! c = Some v) /\
        (m' !! k = Some v \/ (m' !! k = None /\ m' !! c = Some v))
    end.
Proof.
  intros Hk. eexists. split; [apply replace_aliases_run|].
  destruct (aliases_get k) as [c|] eqn:Ha.
  - split; [|split; [|split]].
    + intros [w Hw]. rewrite Hw. by eapply rename_all_canonical_present.
    + intros Hc pre post -> Hpre. by apply rename_all_first.
    + intros Hc Hu.
      assert (k ∈ dict_keys E m) as Hin by (apply dict_keys_elem; eauto).
      apply list_elem_of_split in Hin as (pre & post & Hks).
      pose proof (dict_keys_NoDup E m) as Hnd.
      rewrite Hks in *. apply rename_all_first; [done| |done|done].
      intros j Hj. apply Hu.
      * intros ->. apply NoDup_app in Hnd as (_ & Hdis & _).
        apply (Hdis k Hj). left.
      * apply (dict_keys_elem E m). rewrite Hks. apply elem_of_app. by left.
    + by apply rename_all_renamed_or_kept.
  - by apply rename_all_no_alias.
Qed.

Lemma replace_aliases_spec_witness :
  exists m', replace_aliases Reference.collaborators Demo.madrid = (Returned tt, m') /\
    match aliases_get "addr:street" with
    | None => m' !! "addr:street" = Some "Calle de la Union"
    | Some c =>
        (is_Some (Demo.madrid !! c) ->
         m' !! "addr:street" = Some "Calle de la Union" /\ m' !! c = Demo.madrid !! c) /\
        (Demo.madrid !! c = None ->
         forall pre post,
           dict_keys Reference.collaborators Demo.madrid = pre ++ "addr:street" :: post ->
           (forall j, j ∈ pre -> aliases_get j <> Some c) ->
           m' !! "addr:street" = None /\ m' !! c = Some "Calle de la Union") /\
        (Demo.madrid !! c = None ->
         (forall k2, k2 <> "addr:street" -> is_Some (Demo.madrid !! k2) ->
                     aliases_get k2 <> Some c) ->
         m' !! "addr:street" = None /\ m' !! c = Some "Calle de la Union") /\
        (m' !! "addr:street" = Some "Calle de la Union" \/
         (m' !! "addr:street" = None /\ m' !! c = Some "Calle de la Union"))
    end.
Proof.
  apply (replace_aliases_spec Reference.collaborators Demo.madrid
           "addr:street" "Calle de la Union").
  vm_compute. reflexivity.
Defined.

(** C6 as stated fails: "name" is an alias of "house", which is already a
    key; the raw entry is not dropped, the dict is left exactly as it
    was. *)
Lemma raw_entry_is_not_dropped :
  aliases_get "name" = Some "house" /\
  Demo.cafe !! "house" = Some "Old Mill" /\
  replace_aliases Reference.collaborators Demo.cafe = (Returned tt, Demo.cafe) /\
  snd (replace_aliases Reference.collaborators Demo.cafe) !! "name" = Some "Cafe".
Proof. repeat split; vm_compute; reflexivity. Qed.

(** Two raw keys of one canonical name: which one is renamed depends on
    the order in which the keys are visited. *)
Example shared_canonical_depends_on_order :
  let m : components := <["name" := "A"]> (<["addr:housename" := "B"]> ∅) in
  rename_all ["name"; "addr:housename"] m
  = <["house" := "A"]> (<["addr:housename" := "B"]> ∅) /\
  rename_all ["addr:housename"; "name"] m
  = <["house" := "B"]> (<["name" := "A"]> ∅).
Proof. split; vm_compute; reflexivity. Qed.

(** C10: a no-result for want of a template record (no entry, or an
    entry that is false as a Python value) leaves the caller's dict as it
    was; a no-result of [minimal_components], with alias normalization on, leaves it
    as [replace_aliases] has rewritten it. *)
Theorem format_address_no_result_effect
    (E : Collaborators) (splitter : string) (config : rule_table)
    (country : string) (tc : bool) (σ : components) :
  (forall mo ra,
     config !! Py.upper country = None \/
     (exists t, config !! Py.upper country = Some t /\ truthy t = false) ->
     format_address E splitter config country mo tc ra σ = (Returned None, σ)) /\
  (forall r t,
     config !! Py.upper country = Some (TemplateRecord r) ->
     rec_address_template r = Some t ->
     exists σ', replace_aliases E σ = (Returned tt, σ') /\
       (minimal_components σ' = false ->
        format_address E splitter config country true tc true σ = (Returned None, σ'))).
Proof.
  split.
  - intros mo ra [H|(t & H & Ht)].
    + by apply format_address_absent.
    + by eapply format_address_falsy.
  - intros r t H Ht. eexists. split; [apply replace_aliases_run|].
    intros Hg. by eapply (format_address_minimal E splitter config country r t tc true).
Qed.

Lemma format_address_no_result_effect_witness :
  Demo.format Demo.config "zz" true true true Demo.paris = (Returned None, Demo.paris) /\
  Demo.format Demo.config "es" true true true Demo.paris
  = (Returned None, {["city" := "Paris"]}) /\
  Demo.paris <> {["city" := "Paris"]}.
Proof.
  pose proof (format_address_no_result_effect Reference.collaborators " | "
                Demo.config "zz" true Demo.paris) as [Ha _].
  pose proof (format_address_no_result_effect Reference.collaborators " | "
                Demo.config "es" true Demo.paris) as [_ Hb].
  split; [|split].
  - apply Ha. left. vm_compute. reflexivity.
  - destruct (Hb Demo.es_record (add_suburb_tags Demo.es_template))
      as (σ' & Hrun & Hmin).
    + vm_compute. reflexivity.
    + reflexivity.
    + assert (σ' = {["city" := "Paris"]}) as ->.
      { assert (snd (replace_aliases Reference.collaborators Demo.paris) = σ') as <-
          by (rewrite Hrun; reflexivity).
        vm_compute. reflexivity. }
      apply Hmin. vm_compute. reflexivity.
  - intros H. apply (f_equal (fun m : components => m !! "city")) in H.
    vm_compute in H. discriminate.
Defined.

(* ===================================================================== *)
(** ** Facts about the string primitives                                  *)
(* ===================================================================== *)

Module PyFacts.
Import Py.

Lemma sapp_cons (c : ascii) (s t : string) : String c s +:+ t = String c (s +:+ t).
Proof. reflexivity. Qed.

Lemma sapp_nil_l (t : string) : "" +:+ t = t.
Proof. reflexivity. Qed.

Lemma sapp_nil_r (s : string) : s +:+ "" = s.
Proof. induction s as [|c s IH]; [done|]. by rewrite sapp_cons, IH. Qed.

Lemma sapp_assoc (s t u : string) : (s +:+ t) +:+ u = s +:+ t +:+ u.
Proof. induction s as [|c s IH]; [done|]. by rewrite !sapp_cons, IH. Qed.

Lemma sapp_length (s t : string) :
  String.length (s +:+ t) = String.length s + String.length t.
Proof. induction s as [|c s IH]; [done|]. rewrite sapp_cons. cbn. by rewrite IH. Qed.

Lemma startswith_app (p r : string) : startswith p (p +:+ r) = true.
Proof.
  induction p as [|a p IH]; [done|]. rewrite sapp_cons. cbn.
  by rewrite Ascii.eqb_refl.
Qed.

Lemma startswith_inv (p s : string) :
  startswith p s = true -> exists r, s = p +:+ r.
Proof.
  revert s. induction p as [|a p IH]; intros s H; [by exists s|].
  destruct s as [|b s]; [done|]. cbn in H.
  destruct (Ascii.eqb a b) eqn:Hab; [|done].
  apply Ascii.eqb_eq in Hab as ->. destruct (IH s H) as [r ->]. by exists r.
Qed.

Lemma has_char_app (c : ascii) (s t : string) :
  has_char c (s +:+ t) = has_char c s || has_char c t.
Proof.
  induction s as [|a s IH]; [done|]. rewrite sapp_cons. cbn.
  by rewrite IH, orb_assoc.
Qed.

(** *** [split] and [join] *)

Lemma split_from_skip (sep p r : string) :
  split_from sep (String.length p) (p +:+ r) = split sep r.
Proof. induction p as [|a p IH]; [done|]. rewrite sapp_cons. cbn. apply IH. Qed.

Lemma split_nil (sep : string) : split sep "" = [""].
Proof. reflexivity. Qed.

Lemma split_sep (sep r : string) :
  sep <> "" -> split sep (sep +:+ r) = "" :: split sep r.
Proof.
  intros Hne. destruct sep as [|a sep]; [done|].
  unfold split at 1. rewrite sapp_cons. cbn [split_from].
  rewrite <- sapp_cons, startswith_app. f_equal.
  replace (String.length (String a sep) - 1) with (String.length sep) by (cbn; lia).
  apply split_from_skip.
Qed.

Lemma split_char (sep : string) (c : ascii) (r : string) :
  startswith sep (String c r) = false ->
  split sep (String c r) = push_char c (split sep r).
Proof. intros H. unfold split. cbn [split_from]. by rewrite H. Qed.

Lemma split_not_nil (sep s : string) : split sep s <> [].
Proof.
  unfold split. generalize 0 as n. induction s as [|c s IH]; intros n; [done|].
  cbn. destruct n; [|apply IH].
  destruct (startswith sep (String c s)); [done|].
  specialize (IH 0). by destruct (split_from sep 0 s).
Qed.

Lemma join_cons (sep p q : string) (ps : list string) :
  join sep (p :: q :: ps) = p +:+ sep +:+ join sep (q :: ps).
Proof. reflexivity. Qed.

Lemma join_push_char (sep : string) (c : ascii) (ps : list string) :
  ps <> [] -> join sep (push_char c ps) = String c (join sep ps).
Proof. destruct ps as [|p [|q ps]]; done. Qed.

(** Joining what was split gives the text back. *)
Lemma join_split (sep s : string) : sep <> "" -> join sep (split sep s) = s.
Proof.
  intros Hne.
  assert (forall n s, String.length s <= n -> join sep (split sep s) = s) as Hgen;
    [|by apply (Hgen (String.length s))].
  clear s. induction n as [|n IH]; intros s Hlen.
  { destruct s; [done|cbn in Hlen; lia]. }
  destruct s as [|c s]; [done|]. cbn in Hlen.
  destruct (startswith sep (String c s)) eqn:Hs.
  - apply startswith_inv in Hs as [r Hr]. rewrite Hr, split_sep by done.
    assert (join sep (split sep r) = r) as Hj.
    { apply IH. apply (f_equal String.length) in Hr. rewrite sapp_length in Hr.
      destruct sep; [done|]. cbn in Hr. lia. }
    pose proof (split_not_nil sep r) as Hnn.
    destruct (split sep r) as [|q qs] eqn:Hq; [done|].
    rewrite join_cons, Hj. reflexivity.
  - rewrite split_char by done.
    rewrite join_push_char by apply split_not_nil.
    f_equal. apply IH. lia.
Qed.

(** The parts of a split on one character do not contain it. *)
Lemma split_char_free (x : ascii) (s : string) :
  Forall (fun p => has_char x p = false) (split (String x "") s).
Proof.
  induction s as [|c s IH]; [by repeat constructor|].
  destruct (Ascii.eqb x c) eqn:Hx.
  - apply Ascii.eqb_eq in Hx as <-.
    change (String x s) with (String x "" +:+ s). rewrite split_sep by done.
    by constructor.
  - rewrite split_char by (cbn; by rewrite Hx).
    pose proof (split_not_nil (String x "") s) as Hnn.
    destruct (split (String x "") s) as [|q qs]; [done|].
    apply Forall_cons in IH as [Hq Hqs]. constructor; [|done].
    cbn. rewrite Hq, orb_false_r. by rewrite Ascii.eqb_sym.
Qed.

Lemma rstrip_char_id (x : ascii) (s : string) :
  has_char x s = false -> rstrip_char x s = s.
Proof.
  induction s as [|c s IH]; [done|]. cbn. intros H.
  apply orb_false_iff in H as [Hc Hs]. rewrite (IH Hs).
  destruct s; [by rewrite Hc|done].
Qed.

(** *** [strip] *)

Lemma rstrip_idem (s : string) : rstrip (rstrip s) = rstrip s.
Proof.
  induction s as [|c s IH]; [done|]. cbn.
  destruct (rstrip s) as [|d r] eqn:Hr.
  - destruct (is_space c) eqn:Hc; [done|]. cbn. by rewrite Hc.
  - cbn [rstrip]. cbn [rstrip] in IH. rewrite IH. reflexivity.
Qed.

Lemma lstrip_head (s : string) :
  match lstrip s with
  | "" => True
  | String c _ => is_space c = false
  end.
Proof.
  induction s as [|c s IH]; [done|]. cbn.
  destruct (is_space c) eqn:Hc; [done|]. cbn. done.
Qed.

Lemma rstrip_head (c : ascii) (s : string) :
  is_space c = false -> exists r, rstrip (String c s) = String c r.
Proof.
  intros Hc. cbn. destruct (rstrip s); [|by eexists].
  rewrite Hc. by eexists.
Qed.

Lemma strip_idem (s : string) : strip (strip s) = strip s.
Proof.
  unfold strip. pose proof (lstrip_head s) as Hh.
  destruct (lstrip s) as [|c t]; [done|].
  destruct (rstrip_head c t Hh) as [r Hr]. rewrite Hr.
  assert (lstrip (String c r) = String c r) as -> by (cbn; by rewrite Hh).
  rewrite <- Hr. apply rstrip_idem.
Qed.

End PyFacts.

(* ===================================================================== *)
(** ** Suburb injection at load time                                      *)
(* ===================================================================== *)

Section Suburb.
Import Py PyFacts.

Lemma fold_left_app_flat_map {A B} (f : A -> list B) (l : list A) (acc : list B) :
  fold_left (fun acc x => acc ++ f x) l acc = acc ++ flat_map f l.
Proof.
  revert acc. induction l as [|x l IH]; intros acc; cbn.
  - by rewrite app_nil_r.
  - rewrite IH. by rewrite <- app_assoc.
Qed.

Lemma flat_map_ext_Forall {A B} (f g : A -> list B) (l : list A) :
  Forall (fun x => f x = g x) l -> flat_map f l = flat_map g l.
Proof. induction 1 as [|x l Hx _ IH]; [done|]. cbn. by rewrite Hx, IH. Qed.

(** The lines of the result: every line of the template as it is, each
    one that passes the test followed by the suburb line. *)
Lemma add_suburb_tags_lines (template : string) :
  add_suburb_tags template
  = join Demo.NL (flat_map (fun line => if suburb_follows template line
                                   then [line; suburb_line] else [line])
                      (split Demo.NL template)).
Proof.
  unfold add_suburb_tags. rewrite fold_left_app_flat_map. cbn [app]. f_equal.
  apply flat_map_ext_Forall.
  eapply Forall_impl; [apply (split_char_free LF template)|].
  intros line Hline. cbv beta in *. unfold add_suburb_tags_line, suburb_follows.
  rewrite rstrip_char_id by done.
  by destruct (contains "road" line && negb (contains "suburb" template)
               && negb (post_suburb_keys_search line)).
Qed.

Lemma flat_map_singleton {A} (l : list A) : flat_map (fun x => [x]) l = l.
Proof. induction l as [|x l IH]; [done|]. cbn. by rewrite IH. Qed.

(** A template that mentions a suburb is stored as it is. *)
Lemma add_suburb_tags_included (template : string) :
  contains "suburb" template = true -> add_suburb_tags template = template.
Proof.
  intros H. rewrite add_suburb_tags_lines.
  rewrite (flat_map_ext_Forall _ (fun x => [x])).
  - rewrite flat_map_singleton. by apply join_split.
  - apply Forall_forall. intros line _. unfold suburb_follows.
    by rewrite H, andb_false_r.
Qed.

Lemma join_empty (sep : string) (ps : list string) :
  sep <> "" -> join sep ps = "" -> ps = [] \/ ps = [""].
Proof.
  intros Hne. destruct ps as [|p [|q ps]]; [by left|cbn; intros ->; by right|].
  rewrite join_cons. intros H. apply (f_equal String.length) in H.
  rewrite !sapp_length in H. destruct sep; [done|]. cbn in H. lia.
Qed.

(** Only the empty template is stored as the empty string. *)
Lemma add_suburb_tags_nonempty (template : string) :
  template <> "" -> add_suburb_tags template <> "".
Proof.
  intros Hne Hempty. rewrite add_suburb_tags_lines in Hempty.
  apply join_empty in Hempty; [|done].
  pose proof (join_split Demo.NL template) as Hjs.
  destruct (split Demo.NL template) as [|l1 [|l2 ls]] eqn:Hs.
  - by apply split_not_nil in Hs.
  - cbn in Hempty. destruct (suburb_follows template l1);
      destruct Hempty as [[=]|[=]]. subst. apply Hne. by rewrite <- Hjs.
  - cbn in Hempty.
    destruct (suburb_follows template l1), (suburb_follows template l2);
      destruct Hempty as [[=]|[=]].
Qed.

End Suburb.

(** C7 (as amended): [add_suburb_tags] keeps every line of the template
    as it is, in order, and puts a line [{{{suburb}}}] directly after a
    line exactly when the line contains the text "road", the template
    contains the text "suburb" nowhere, and the line contains none of
    city, state, state_district, postcode, country in any letter case.
    The tests are on the bare words, not on placeholders. *)
Theorem add_suburb_tags_spec (template : string) :
  add_suburb_tags template
  = Py.join Demo.NL
      (flat_map (fun line =>
                   if Py.contains "road" line
                      && negb (Py.contains "suburb" template)
                      && negb (existsb (fun key => Py.contains key (Py.lower line))
                                       ["city"; "state"; "state_district";
                                        "postcode"; "country"])
                   then [line; "{{{suburb}}}"] else [line])
                (Py.split Demo.NL template)).
Proof. apply add_suburb_tags_lines. Qed.

(** C7 as stated fails in both directions.  The first template has a road
    placeholder on a line without any of the keywords and no suburb
    placeholder, only the word in a comment tag, and nothing is inserted.
    The second has no road placeholder, and a suburb line is inserted
    after its line because the name of its placeholder contains "road". *)
Lemma suburb_test_is_textual :
  let noted := "{{{road}}}" +:+ Demo.NL +:+ "{{! no suburb line }}" in
  Py.contains "{{{road}}}" "{{{road}}}" = true /\
  Py.contains "{{{suburb}}}" noted = false /\
  Py.contains "{{suburb}}" noted = false /\
  post_suburb_keys_search "{{{road}}}" = false /\
  add_suburb_tags noted = noted /\
  Py.contains "{{{road}}}" "{{{crossroad}}}" = false /\
  add_suburb_tags "{{{crossroad}}}" = "{{{crossroad}}}" +:+ Demo.NL +:+ "{{{suburb}}}".
Proof. repeat split; vm_compute; reflexivity. Qed.

(* ===================================================================== *)
(** ** Records that [format_address] cannot index                         *)
(* ===================================================================== *)

(** C2 at its failing inputs: a country whose entry [load_config] stored
    as a bare template string makes [format_address] raise [TypeError],
    whatever the components and the switches. *)
Theorem format_address_raises_on_bare_template
    (E : Collaborators) (splitter : string) (yaml : rule_table)
    (country s : string) (mo tc ra : bool) (σ : components) :
  yaml !! Py.upper country = Some (TemplateString s) -> s <> "" ->
  format_address E splitter (load_config yaml) country mo tc ra σ
  = (Raised TypeError, σ).
Proof.
  intros H Hs.
  apply format_address_bare_string with (s := add_suburb_tags s).
  - unfold load_config. rewrite lookup_fmap, H. reflexivity.
  - by apply add_suburb_tags_nonempty.
Qed.

Lemma format_address_raises_on_bare_template_witness :
  Demo.format Demo.config "xx" true true true Demo.madrid
  = (Raised TypeError, Demo.madrid).
Proof.
  apply (format_address_raises_on_bare_template Reference.collaborators " | "
           Demo.yaml "xx" "{{{road}}}" true true true Demo.madrid).
  - vm_compute. reflexivity.
  - discriminate.
Defined.

(** The same happens, with [KeyError], for a mapping that has no
    [address_template], which [load_config] lets through. *)
Lemma format_address_raises_without_template
    (E : Collaborators) (splitter : string) (yaml : rule_table)
    (country : string) (r : template_record) (mo tc ra : bool) (σ : components) :
  yaml !! Py.upper country = Some (TemplateRecord r) ->
  rec_address_template r = None -> truthy_dict r = true ->
  format_address E splitter (load_config yaml) country mo tc ra σ
  = (Raised KeyError, σ).
Proof.
  intros H Hn Ht.
  eapply format_address_no_template.
  - unfold load_config. rewrite lookup_fmap, H. reflexivity.
  - unfold truthy_dict in *. cbn. rewrite Hn in *. cbn in *.
    destruct (rec_replace r), (rec_postformat_replace r) as [[|]|], (rec_other_keys r);
      done.
  - cbn. by rewrite Hn.
Qed.

Lemma format_address_raises_without_template_witness :
  Demo.format Demo.config "as" true true true Demo.madrid
  = (Raised KeyError, Demo.madrid).
Proof.
  apply (format_address_raises_without_template Reference.collaborators " | "
           Demo.yaml "as" Demo.use_country_record true true true Demo.madrid);
    vm_compute; reflexivity.
Defined.

(* ===================================================================== *)
(** ** Deduplication in [post_replacements]                               *)
(* ===================================================================== *)

Section Dedup.
Import Py PyFacts.

Lemma dedup_seen_elem (seen : gset string) (parts : list string) (x : string) :
  x ∈ dedup_seen seen parts -> (x ∉ seen) /\ exists y, (y ∈ parts) /\ x = strip y.
Proof.
  revert seen. induction parts as [|p parts IH]; intros seen Hx; cbn in Hx.
  { by apply elem_of_nil in Hx. }
  destruct (bool_decide (strip p ∈ seen)) eqn:Hp.
  - destruct (IH _ Hx) as (Hn & y & Hy & ->). split; [done|].
    exists y. split; [by right|done].
  - apply bool_decide_eq_false in Hp.
    apply elem_of_cons in Hx as [Heq|Hx].
    + split; [by rewrite Heq|]. exists p. split; [by left|done].
    + destruct (IH _ Hx) as (Hn & y & Hy & Hxy).
      split; [intros Hs; apply Hn, elem_of_union; by right|].
      exists y. split; [by right|done].
Qed.

Lemma dedup_seen_NoDup (seen : gset string) (parts : list string) :
  NoDup (dedup_seen seen parts).
Proof.
  revert seen. induction parts as [|p parts IH]; intros seen; cbn; [constructor|].
  destruct (bool_decide (strip p ∈ seen)); [apply IH|].
  constructor; [|apply IH].
  intros Hin. apply dedup_seen_elem in Hin as [Hn _].
  apply Hn, elem_of_union. left. by apply elem_of_singleton.
Qed.

(** A list of distinct stripped parts, none of them seen, is kept. *)
Lemma dedup_seen_fixed (seen : gset string) (parts : list string) :
  Forall (fun p => strip p = p) parts -> NoDup parts ->
  (forall p, p ∈ parts -> p ∉ seen) ->
  dedup_seen seen parts = parts.
Proof.
  revert seen. induction parts as [|p parts IH]; intros seen Hs Hnd Hseen; [done|].
  apply Forall_cons in Hs as [Hp Hs]. apply NoDup_cons in Hnd as [Hnp Hnd].
  cbn. rewrite Hp. rewrite bool_decide_eq_false_2 by (apply Hseen; left).
  f_equal. apply IH; [done|done|].
  intros q Hq. pose proof (Hseen q (list_elem_of_further _ _ _ Hq)) as Hqs.
  assert (q <> p) as Hqp by (intros Heq; by rewrite Heq in Hq).
  rewrite elem_of_union, elem_of_singleton. by intros [?|?].
Qed.

Lemma dedup_seen_idem (parts : list string) :
  dedup_seen ∅ (dedup_seen ∅ parts) = dedup_seen ∅ parts.
Proof.
  apply dedup_seen_fixed.
  - apply Forall_forall. intros x Hx.
    apply dedup_seen_elem in Hx as (_ & y & _ & ->). apply strip_idem.
  - apply dedup_seen_NoDup.
  - intros p _. apply not_elem_of_empty.
Qed.

Lemma dedup_seen_not_nil (parts : list string) :
  parts <> [] -> dedup_seen ∅ parts <> [].
Proof.
  destruct parts as [|p parts]; [done|]. intros _. cbn.
  rewrite bool_decide_eq_false_2 by apply not_elem_of_empty. done.
Qed.

(** A part without a bar is not cut by the default splitter. *)
Lemma split_bar_one (p : string) :
  has_char "|" p = false -> split " | " p = [p].
Proof.
  induction p as [|c p IH]; [done|]. intros H.
  cbn [has_char] in H. apply orb_false_iff in H as [Hc Hp].
  rewrite split_char.
  - rewrite (IH Hp). reflexivity.
  - cbn [startswith]. destruct (Ascii.eqb " " c); [|done].
    destruct p as [|d p]; [done|]. cbn [has_char] in Hp.
    apply orb_false_iff in Hp as [Hd _]. by rewrite Ascii.eqb_sym, Hd.
Qed.

Lemma split_bar_app (p r : string) :
  has_char "|" p = false ->
  split " | " (p +:+ " | " +:+ r) = p :: split " | " r.
Proof.
  induction p as [|c p IH]; intros H.
  { rewrite sapp_nil_l. by apply split_sep. }
  cbn [has_char] in H. apply orb_false_iff in H as [Hc Hp].
  rewrite sapp_cons, split_char.
  - rewrite (IH Hp). reflexivity.
  - cbn [startswith]. destruct (Ascii.eqb " " c); [|done].
    destruct p as [|d p]; [done|]. cbn [has_char] in Hp.
    apply orb_false_iff in Hp as [Hd _]. rewrite sapp_cons.
    by rewrite Ascii.eqb_sym, Hd.
Qed.

(** Splitting what was joined gives the parts back, when no part has a
    bar. *)
Lemma split_join_bar (parts : list string) :
  parts <> [] -> Forall (fun p => has_char "|" p = false) parts ->
  split " | " (join " | " parts) = parts.
Proof.
  induction parts as [|p [|q parts] IH]; intros Hne Hbar; [done| |].
  - apply Forall_cons in Hbar as [Hp _]. by apply split_bar_one.
  - apply Forall_cons in Hbar as [Hp Hrest].
    rewrite join_cons, split_bar_app by done. f_equal. by apply IH.
Qed.

End Dedup.

(** C8 (as amended): the deduplication step of [post_replacements], with
    the default splitter, is idempotent on every text none of whose
    stripped segments contains the bar of the splitter. *)
Theorem dedup_components_idempotent (text : string) :
  (forall p, p ∈ map Py.strip (Py.split " | " text) -> Py.has_char "|" p = false) ->
  dedup_components " | " (dedup_components " | " text) = dedup_components " | " text.
Proof.
  intros Hbar. unfold dedup_components at 1 2.
  rewrite split_join_bar.
  - by rewrite dedup_seen_idem.
  - apply dedup_seen_not_nil, PyFacts.split_not_nil.
  - apply Forall_forall. intros x Hx.
    apply dedup_seen_elem in Hx as (_ & y & Hy & ->).
    apply Hbar. apply list_elem_of_In, in_map, list_elem_of_In, Hy.
Qed.

Lemma dedup_components_idempotent_witness :
  dedup_components " | " (dedup_components " | " "Main St  | Main St |  Springfield")
  = dedup_components " | " "Main St  | Main St |  Springfield".
Proof.
  apply dedup_components_idempotent.
  intros p Hp. vm_compute in Hp.
  repeat (apply elem_of_cons in Hp as [->|Hp]; [reflexivity|]).
  by apply elem_of_nil in Hp.
Defined.

(** C8 as stated fails: a segment that ends in a bar followed by a tab is
    stripped to one that ends in a bar; once joined, that bar is read as
    part of a separator, and the second run cuts the text elsewhere. *)
Lemma dedup_components_not_idempotent :
  let text := "a |" +:+ String Py.TAB " |  | b" in
  dedup_components " | " text = "a | |  | b" /\
  dedup_components " | " (dedup_components " | " text) = "a | | | b".
Proof. split; vm_compute; reflexivity. Qed.

(* ===================================================================== *)
(** ** Tagged stripping                                                   *)
(* ===================================================================== *)

Section Tagged.

Local Abbreviation tagged := (fun t : string => is_Some (Py.rsplit1 "/" t)).
Local Abbreviation sep := (fun t : string => is_sep_token t = true).

Lemma scan_start_tagged_run (i : nat) (tokens : list string) :
  Forall tagged tokens ->
  scan_start_tagged i i tokens = Returned (i + leading_seps tokens).
Proof.
  intros H. revert i. induction H as [|t rest [[l c] Ht] _ IH]; intros i; cbn.
  { f_equal. lia. }
  unfold is_sep_token. rewrite Ht.
  destruct (String.eqb c separator_tag).
  - rewrite IH. f_equal. lia.
  - f_equal. lia.
Qed.

Lemma scan_end_tagged_run (n j e : nat) (rtokens : list string) :
  Forall tagged rtokens -> rtokens <> [] \/ e = n - j ->
  scan_end_tagged n j e rtokens = Returned (n - j - leading_seps rtokens).
Proof.
  intros H. revert j e. induction H as [|t rest [[l c] Ht] _ IH]; intros j e He; cbn.
  { destruct He as [Hne|Heq]; [done|]. rewrite Heq. f_equal. lia. }
  unfold is_sep_token. rewrite Ht.
  destruct (String.eqb c separator_tag).
  - rewrite IH by (right; lia). f_equal. lia.
  - f_equal. lia.
Qed.

Lemma leading_seps_all (l : list string) :
  Forall sep l -> leading_seps l = length l.
Proof. induction 1 as [|t l Ht _ IH]; [done|]. cbn. by rewrite Ht, IH. Qed.

Lemma leading_seps_app (pre l : list string) :
  Forall sep pre -> leading_seps (pre ++ l) = length pre + leading_seps l.
Proof. induction 1 as [|t pre Ht _ IH]; [done|]. cbn. by rewrite Ht, IH. Qed.

Lemma leading_seps_stop (t : string) (l : list string) :
  is_sep_token t = false -> leading_seps (t :: l) = 0.
Proof. intros H. cbn. by rewrite H. Qed.

(** The leading run of separators, and what follows it. *)
Lemma span_seps (l : list string) :
  exists pre rest, l = pre ++ rest /\ Forall sep pre /\
    (rest = [] \/ exists t r, rest = t :: r /\ is_sep_token t = false).
Proof.
  induction l as [|t l (pre & rest & -> & Hpre & Hrest)].
  { exists [], []. repeat split; [constructor|by left]. }
  destruct (is_sep_token t) eqn:Ht.
  - exists (t :: pre), rest. repeat split; [by constructor|done].
  - exists [], (t :: pre ++ rest). repeat split; [constructor|].
    right. by eexists _, _.
Qed.

(** The trailing run of separators, and what precedes it. *)
Lemma rspan_seps (l : list string) :
  exists mid post, l = mid ++ post /\ Forall sep post /\
    (mid = [] \/ exists m t, mid = m ++ [t] /\ is_sep_token t = false).
Proof.
  destruct (span_seps (rev l)) as (pre & rest & Hl & Hpre & Hrest).
  exists (rev rest), (rev pre). split; [|split].
  - rewrite <- rev_app_distr, <- Hl. by rewrite rev_involutive.
  - by apply Forall_rev.
  - destruct Hrest as [->|(t & r & -> & Ht)]; [by left|].
    right. by exists (rev r), t.
Qed.

Lemma strip_component_tagged_slice (value : string) :
  Forall tagged (Py.split_ws value) ->
  strip_component_tagged value
  = Returned (Py.join " "
      (Py.slice_list (leading_seps (Py.split_ws value))
         (length (Py.split_ws value) - leading_seps (rev (Py.split_ws value)))
         (Py.split_ws value))).
Proof.
  intros H. unfold strip_component_tagged.
  rewrite scan_start_tagged_run by done. cbn [mbind outcome_bind].
  rewrite scan_end_tagged_run.
  - cbn. by rewrite Nat.sub_0_r.
  - by apply Forall_rev.
  - destruct (Py.split_ws value); [by right|left].
    cbn. by destruct (rev l).
Qed.

End Tagged.

(** The tokens between the first and the last one that is not a
    separator. *)
Lemma strip_component_tagged_between (value : string) :
  Forall (fun t => is_Some (Py.rsplit1 "/" t)) (Py.split_ws value) ->
  exists pre mid post,
    Py.split_ws value = pre ++ mid ++ post /\
    Forall (fun t => is_sep_token t = true) pre /\
    Forall (fun t => is_sep_token t = true) post /\
    (forall t, head mid = Some t -> is_sep_token t = false) /\
    (forall t, last mid = Some t -> is_sep_token t = false) /\
    strip_component_tagged value = Returned (Py.join " " mid).
Proof.
  intros Htag. rewrite strip_component_tagged_slice by done.
  destruct (span_seps (Py.split_ws value)) as (pre & rest & -> & Hpre & Hrest).
  destruct (rspan_seps rest) as (mid & post & -> & Hpost & Hmid).
  exists pre, mid, post.
  destruct Hmid as [->|(m & t' & -> & Ht')].
  - (* every token is a separator *)
    repeat split; [done|done|done|done|]. cbn [app] in *.
    assert (Forall (fun t => is_sep_token t = true) (pre ++ post)) as Hall
      by by apply Forall_app.
    rewrite (leading_seps_all _ Hall).
    rewrite (leading_seps_all (rev (pre ++ post))) by by apply Forall_rev.
    rewrite length_rev, Nat.sub_diag. unfold Py.slice_list.
    by rewrite Nat.sub_0_l, take_0.
  - assert (exists t r, m ++ [t'] = t :: r /\ is_sep_token t = false)
      as (t & r & Hm & Ht).
    { destruct Hrest as [Hnil|(t & r & Heq & Ht)].
      - by destruct m.
      - destruct m as [|t0 m]; cbn in *.
        + by exists t', [].
        + injection Heq as -> _. by eexists _, _. }
    repeat split; [done|done| | |].
    + intros t0. rewrite Hm. cbn. by intros [= <-].
    + intros t0. rewrite last_snoc. by intros [= <-].
    + assert (leading_seps (pre ++ (m ++ [t']) ++ post) = length pre) as ->.
      { rewrite leading_seps_app by done. rewrite Hm. cbn [app].
        rewrite leading_seps_stop by done. lia. }
      assert (leading_seps (rev (pre ++ (m ++ [t']) ++ post)) = length post) as ->.
      { rewrite !rev_app_distr. cbn [rev app]. rewrite <- !app_assoc.
        rewrite leading_seps_app by by apply Forall_rev. cbn [app].
        rewrite leading_seps_stop by done. rewrite length_rev. lia. }
      unfold Py.slice_list. rewrite !length_app.
      replace (length pre + (length m + length [t'] + length post)
               - length post - length pre)
        with (length (m ++ [t'])) by (rewrite length_app; lia).
      rewrite drop_app_length. by rewrite take_app_length.
Qed.

Lemma sep_token_tagged (t : string) :
  is_sep_token t = true -> is_Some (Py.rsplit1 "/" t).
Proof. unfold is_sep_token. destruct (Py.rsplit1 "/" t); [eauto|done]. Qed.


(** The empty value, a value of separators only, and a value with text
    between separators. *)
Example strip_component_tagged_examples :
  strip_component_tagged "" = Returned "" /\
  strip_component_tagged ",/SEP -/SEP" = Returned "" /\
  strip_component_tagged ",/SEP Main/road -/SEP St/road -/SEP" =
  Returned "Main/road -/SEP St/road".
Proof. repeat split; vm_compute; reflexivity. Qed.

(* ===================================================================== *)
(** ** Separator tagging of templates                                     *)
(* ===================================================================== *)

Section Separators.
Import Py PyFacts.

Lemma replace_from_skip (pat rep p r : string) :
  replace_from pat rep (String.length p) (p +:+ r) = replace pat rep r.
Proof. induction p as [|a p IH]; [done|]. rewrite sapp_cons. cbn. apply IH. Qed.

Lemma replace_hit (pat rep r : string) :
  pat <> "" -> replace pat rep (pat +:+ r) = rep +:+ replace pat rep r.
Proof.
  intros Hne. destruct pat as [|a pat]; [done|].
  unfold replace at 1. rewrite sapp_cons. cbn [replace_from].
  rewrite <- sapp_cons, startswith_app. f_equal.
  replace (String.length (String a pat) - 1) with (String.length pat) by (cbn; lia).
  apply replace_from_skip.
Qed.

Lemma replace_miss (pat rep : string) (c : ascii) (r : string) :
  startswith pat (String c r) = false ->
  replace pat rep (String c r) = String c (replace pat rep r).
Proof. intros H. unfold replace. cbn [replace_from]. by rewrite H. Qed.

Lemma startswith_head (a : ascii) (pat : string) (c : ascii) (r : string) :
  a <> c -> startswith (String a pat) (String c r) = false.
Proof. intros H. cbn [startswith]. by apply Ascii.eqb_neq in H as ->. Qed.

Lemma erase_labels_char (c : ascii) (s : string) :
  c <> "/"%char -> erase_labels (String c s) = String c (erase_labels s).
Proof. intros H. apply replace_miss. by apply startswith_head. Qed.

Lemma erase_labels_label (s : string) :
  erase_labels (String "/" (String "S" (String "E" (String "P" s)))) = erase_labels s.
Proof. apply (replace_hit "/SEP" "" s). done. Qed.

Lemma despace_space (s : string) : despace (String " " s) = despace s.
Proof. apply (replace_hit " " "" s). done. Qed.

Lemma despace_char (c : ascii) (s : string) :
  c <> " "%char -> despace (String c s) = String c (despace s).
Proof. intros H. apply replace_miss. by apply startswith_head. Qed.

Lemma despace_app (s t : string) : despace (s +:+ t) = despace s +:+ despace t.
Proof.
  induction s as [|c s IH]; [done|]. rewrite sapp_cons.
  destruct (decide (c = " "%char)) as [->|Hc].
  - by rewrite !despace_space.
  - by rewrite !despace_char, IH.
Qed.

(** Replacing is cutting at the pattern and joining with the
    replacement. *)
Lemma replace_join_split (pat rep s : string) :
  pat <> "" -> replace pat rep s = join rep (split pat s).
Proof.
  intros Hne.
  assert (forall n s, String.length s <= n ->
            replace pat rep s = join rep (split pat s)) as Hgen;
    [|by apply (Hgen (String.length s))].
  clear s. induction n as [|n IH]; intros s Hlen.
  { destruct s; [done|cbn in Hlen; lia]. }
  destruct s as [|c s]; [done|]. cbn in Hlen.
  destruct (startswith pat (String c s)) eqn:Hs.
  - apply startswith_inv in Hs as [r Hr]. rewrite Hr.
    rewrite replace_hit, split_sep by done.
    assert (replace pat rep r = join rep (split pat r)) as ->.
    { apply IH. apply (f_equal String.length) in Hr. rewrite sapp_length in Hr.
      destruct pat; [done|]. cbn in Hr. lia. }
    pose proof (split_not_nil pat r) as Hnn.
    destruct (split pat r) as [|q qs] eqn:Hq; [done|].
    rewrite join_cons. reflexivity.
  - rewrite replace_miss, split_char by done.
    rewrite join_push_char by apply split_not_nil.
    f_equal. apply IH. lia.
Qed.

(** *** Texts with labels and spaces put in *)

Lemma labelled_refl (t : string) : labelled t t.
Proof. induction t; by constructor. Qed.

(** A text that holds neither a space nor a slash is at the front of a
    labelled text only when it is at the front of the original. *)
Lemma labelled_startswith (w t u : string) :
  has_char " " w = false -> has_char "/" w = false ->
  labelled t u -> startswith w u = true -> startswith w t = true.
Proof.
  revert t u. induction w as [|a w IH]; intros t u Hsp Hsl Hl Hw; [done|].
  cbn [has_char] in Hsp, Hsl.
  apply orb_false_iff in Hsp as [Ha1 Hsp]. apply orb_false_iff in Hsl as [Ha2 Hsl].
  apply Ascii.eqb_neq in Ha1, Ha2.
  destruct u as [|b u]; [done|]. cbn [startswith] in Hw.
  destruct (Ascii.eqb a b) eqn:Hab; [|done]. apply Ascii.eqb_eq in Hab as <-.
  inversion Hl; subst; [|done|done].
  cbn [startswith]. rewrite Ascii.eqb_refl. by eapply IH.
Qed.

(** Deleting the labels and the spaces of a labelled text gives the
    original without its spaces, when the original has no label of its
    own. *)
Lemma labelled_erase (t u : string) :
  labelled t u -> contains "/SEP" t = false ->
  despace (erase_labels u) = despace t.
Proof.
  induction 1 as [|c t u Hl IH|t u Hl IH|t u Hl IH]; intros Hfree.
  - done.
  - cbn [contains] in Hfree. apply orb_false_iff in Hfree as [Hhead Hfree].
    assert (startswith "/SEP" (String c u) = false) as Hu.
    { destruct (startswith "/SEP" (String c u)) eqn:Hsw; [|done].
      change (startswith "/SEP" (String c u))
        with (if Ascii.eqb "/" c then startswith "SEP" u else false) in Hsw.
      change (startswith "/SEP" (String c t))
        with (if Ascii.eqb "/" c then startswith "SEP" t else false) in Hhead.
      destruct (Ascii.eqb "/" c); [|done].
      rewrite (labelled_startswith "SEP" t u) in Hhead; done. }
    unfold erase_labels. rewrite replace_miss by done. fold (erase_labels u).
    destruct (decide (c = " "%char)) as [->|Hc].
    + rewrite !despace_space. by apply IH.
    + rewrite !despace_char by done. f_equal. by apply IH.
  - rewrite erase_labels_char by done. rewrite despace_space. by apply IH.
  - rewrite erase_labels_label. by apply IH.
Qed.

(** One rewrite of [tag_template_separators] on a labelled text.  The
    pattern starts with a character that is no part of a label, and
    whatever text the pattern is the front of, the replacement can stand
    in its place. *)
Lemma rewrite_labelled (a : ascii) (pat rep : string) :
  has_char a "/SEP" = false ->
  (forall t z, labelled t (String a pat +:+ z) ->
     exists t', labelled t' z /\ forall z', labelled t' z' -> labelled t (rep +:+ z')) ->
  forall t u, labelled t u -> labelled t (replace (String a pat) rep u).
Proof.
  intros Ha Hlocal.
  assert (forall c, has_char c "/SEP" = true -> a <> c) as Hne
    by (intros c H ->; congruence).
  assert (forall n u, String.length u <= n -> forall t, labelled t u ->
            labelled t (replace (String a pat) rep u)) as Hgen;
    [|intros t u; by apply (Hgen (String.length u))].
  induction n as [|n IH]; intros u Hlen t Hl.
  { destruct u; [|cbn in Hlen; lia]. done. }
  destruct u as [|c u]; [done|]. cbn in Hlen.
  destruct (startswith (String a pat) (String c u)) eqn:Hsw.
  - apply startswith_inv in Hsw as [z Hz]. rewrite Hz in *.
    rewrite replace_hit by done.
    destruct (Hlocal t z Hl) as (t' & Hz' & Hbuild).
    apply Hbuild, IH; [|done].
    apply (f_equal String.length) in Hz. rewrite sapp_length in Hz. cbn in Hz. lia.
  - rewrite replace_miss by done.
    inversion Hl as [|c' t0 u0 Hl0|t0 u0 Hl0|t0 u0 Hl0]; subst.
    + constructor. apply IH; [lia|done].
    + constructor. apply IH; [lia|done].
    + rewrite !replace_miss by (apply startswith_head, Hne; done).
      constructor. apply IH; [cbn in Hlen; lia|done].
Qed.

Lemma tag_placeholder_comma_labelled (t u : string) :
  labelled t u -> labelled t (tag_placeholder_comma u).
Proof.
  apply (rewrite_labelled "}" "," "} ,/SEP "); [done|].
  intros t0 z Hl. rewrite !sapp_cons, sapp_nil_l in Hl.
  inversion Hl as [|c1 t1 u1 Hl1| |]; subst.
  inversion Hl1 as [|c2 t2 u2 Hl2| |]; subst.
  exists t2. split; [done|]. intros z' Hz'. rewrite !sapp_cons, sapp_nil_l.
  by repeat constructor.
Qed.

Lemma tag_placeholder_hyphen_labelled (t u : string) :
  labelled t u -> labelled t (tag_placeholder_hyphen u).
Proof.
  apply (rewrite_labelled "}" "-" "} -/SEP "); [done|].
  intros t0 z Hl. rewrite !sapp_cons, sapp_nil_l in Hl.
  inversion Hl as [|c1 t1 u1 Hl1| |]; subst.
  inversion Hl1 as [|c2 t2 u2 Hl2| |]; subst.
  exists t2. split; [done|]. intros z' Hz'. rewrite !sapp_cons, sapp_nil_l.
  by repeat constructor.
Qed.

Lemma tag_spaced_hyphen_labelled (t u : string) :
  labelled t u -> labelled t (tag_spaced_hyphen u).
Proof.
  apply (rewrite_labelled " " "- " " -/SEP "); [done|].
  intros t0 z Hl. rewrite !sapp_cons, sapp_nil_l in Hl.
  assert (forall t1 u1, labelled t1 (String "-" u1) ->
            exists t2, t1 = String "-" t2 /\ labelled t2 u1) as Hhyphen.
  { intros t1 u1 H. inversion H; subst. by eexists. }
  assert (forall t1 u1, labelled t1 (String " " u1) ->
            exists t2, labelled t2 u1 /\
              forall u2, labelled t2 u2 -> labelled t1 (String " " u2)) as Hspace.
  { intros t1 u1 H. inversion H; subst; eexists; (split; [done|]); intros u2 Hu2;
      by constructor. }
  destruct (Hspace _ _ Hl) as (t1 & Hl1 & Hb1).
  destruct (Hhyphen _ _ Hl1) as (t2 & -> & Hl2).
  destruct (Hspace _ _ Hl2) as (t3 & Hl3 & Hb3).
  exists t3. split; [done|]. intros z' Hz'. rewrite !sapp_cons, sapp_nil_l.
  apply Hb1. constructor. constructor. by apply Hb3.
Qed.

End Separators.
(** C5 (as amended): each rewrite of [tag_template_separators], alone
    and in the pipeline, keeps every character of its input in order and
    only puts in labels [/SEP] and spaces: each [},] becomes [} ,/SEP ],
    each [}-] becomes [} -/SEP ] and each [ - ] becomes [ -/SEP ], cut
    from the left without overlap.  For a template that holds no [/SEP]
    of its own, deleting the labels from the result of any stage gives
    the template back up to spaces.  The matched text itself is not kept
    as it was, since a space comes between the brace and the comma or
    hyphen. *)
Theorem tag_template_separators_keeps_text (template : string) :
  (labelled template (tag_placeholder_comma template) /\
   labelled template (tag_placeholder_hyphen template) /\
   labelled template (tag_spaced_hyphen template) /\
   labelled template (tag_placeholder_hyphen (tag_placeholder_comma template)) /\
   labelled template (tag_template_separators template)) /\
  (tag_placeholder_comma template = Py.join "} ,/SEP " (Py.split "}," template) /\
   tag_placeholder_hyphen template = Py.join "} -/SEP " (Py.split "}-" template) /\
   tag_spaced_hyphen template = Py.join " -/SEP " (Py.split " - " template)) /\
  (Py.contains "/SEP" template = false ->
   despace (erase_labels (tag_placeholder_comma template)) = despace template /\
   despace (erase_labels (tag_placeholder_hyphen (tag_placeholder_comma template)))
   = despace template /\
   despace (erase_labels (tag_template_separators template)) = despace template).
Proof.
  pose proof (labelled_refl template) as H0.
  pose proof (tag_placeholder_comma_labelled _ _ H0) as H1.
  pose proof (tag_placeholder_hyphen_labelled _ _ H1) as H2.
  pose proof (tag_spaced_hyphen_labelled _ _ H2) as H3.
  split; [|split].
  - repeat split; try done.
    + by apply tag_placeholder_hyphen_labelled.
    + by apply tag_spaced_hyphen_labelled.
  - repeat split; by apply replace_join_split.
  - intros Hfree. repeat split; by apply labelled_erase.
Qed.

Lemma tag_template_separators_keeps_text_witness :
  labelled Demo.es_template (tag_template_separators Demo.es_template) /\
  tag_placeholder_comma Demo.es_template
  = Py.join "} ,/SEP " (Py.split "}," Demo.es_template) /\
  despace (erase_labels (tag_template_separators Demo.es_template))
  = despace Demo.es_template.
Proof.
  destruct (tag_template_separators_keeps_text Demo.es_template)
    as ((_ & _ & _ & _ & Hl) & (Hj & _) & He).
  split; [exact Hl|]. split; [exact Hj|].
  apply He. vm_compute. reflexivity.
Defined.

(** The third part needs its condition: a template that holds [/SEP]
    itself loses it with the labels. *)
Example label_of_the_template :
  let template := "{{{road}}}/SEP,{{{city}}}" in
  Py.contains "/SEP" template = true /\
  despace (erase_labels (tag_template_separators template)) = "{{{road}}},{{{city}}}" /\
  despace (erase_labels (tag_template_separators template)) <> despace template.
Proof. repeat split; [vm_compute; reflexivity..|]. vm_compute. discriminate. Qed.

(** C5 as stated fails: the placeholder-comma rewrite does not keep the
    text "}," (the result no longer contains it), and the template with
    the labels deleted, with or without the space that follows them, is
    not the original and does not render like it. *)
Lemma separator_rewrite_changes_text :
  let template := "{{{road}}},{{{city}}}" in
  let tagged := tag_template_separators template in
  tagged = "{{{road}}} ,/SEP {{{city}}}" /\
  Py.contains "}," tagged = false /\
  erase_labels tagged = "{{{road}}} , {{{city}}}" /\
  Py.replace "/SEP " "" tagged = "{{{road}}} ,{{{city}}}" /\
  Reference.render template Demo.springfield None = "Main St,Springfield" /\
  Reference.render (erase_labels tagged) Demo.springfield None = "Main St , Springfield" /\
  Reference.render (Py.replace "/SEP " "" tagged) Demo.springfield None
  = "Main St ,Springfield".
Proof. repeat split; vm_compute; reflexivity. Qed.

(* ===================================================================== *)
(** ** Untagged stripping                                                 *)
(* ===================================================================== *)

(** C4 at its failing input: the tokens are those of the stripped value,
    the slice is taken from the value itself; with a leading space the
    offsets are one too small, so that the leading comma stays and the
    last letter is lost. *)
Theorem strip_component_untagged_leading_space (E : Collaborators) :
  tokenize_raw E ",Main" = [(0, 1, COMMA); (1, 4, WORD)] ->
  strip_component_untagged E " ,Main" = ",Mai".
Proof.
  intros Htok. unfold strip_component_untagged.
  change (Py.strip " ,Main") with ",Main". rewrite Htok. reflexivity.
Qed.

Lemma strip_component_untagged_leading_space_witness :
  strip_component_untagged Reference.collaborators " ,Main" = ",Mai".
Proof.
  apply (strip_component_untagged_leading_space Reference.collaborators).
  vm_compute. reflexivity.
Defined.

(** The example of the spec: without leading white space the offsets fit,
    and the dangling commas and hyphens go. *)
Lemma strip_component_untagged_example (E : Collaborators) :
  tokenize_raw E ", - Main St -,"
  = [(0, 1, COMMA); (2, 1, HYPHEN); (4, 4, WORD); (9, 2, WORD);
     (12, 1, HYPHEN); (13, 1, COMMA)] ->
  strip_component_untagged E ", - Main St -, " = "Main St".
Proof.
  intros Htok. unfold strip_component_untagged.
  change (Py.strip ", - Main St -, ") with ", - Main St -,". rewrite Htok.
  reflexivity.
Qed.

Lemma strip_component_untagged_example_witness :
  strip_component_untagged Reference.collaborators ", - Main St -, " = "Main St".
Proof.
  apply (strip_component_untagged_example Reference.collaborators).
  vm_compute. reflexivity.
Defined.

(** Slicing a text and slicing it with more text behind give the same,
    when the slice ends inside the text. *)
Lemma substring_app (p t : string) (a len : nat) :
  a + len <= String.length p ->
  String.substring a len (p +:+ t) = String.substring a len p.
Proof.
  revert a len. induction p as [|c p IH]; intros a len Hlen.
  { cbn in Hlen. assert (a = 0) as -> by lia. assert (len = 0) as -> by lia.
    by destruct t. }
  rewrite PyFacts.sapp_cons. cbn in Hlen. destruct a as [|a]; cbn.
  - destruct len as [|len]; [done|]. f_equal. apply IH. lia.
  - apply IH. lia.
Qed.

Lemma substring_empty (a : nat) (s : string) : String.substring a 0 s = "".
Proof.
  revert a. induction s as [|c s IH]; intros [|a]; cbn; auto.
Qed.

Lemma rstrip_prefix (s : string) : exists t, s = Py.rstrip s +:+ t.
Proof.
  induction s as [|c s [t IH]]; [by exists ""|]. cbn.
  destruct (Py.rstrip s) as [|d r].
  - destruct (Py.is_space c).
    + by exists (String c s).
    + exists s. done.
  - exists t. rewrite PyFacts.sapp_cons. by rewrite <- IH.
Qed.

(** The first loop stops at the first token that is neither comma nor
    hyphen, the second at the last one. *)
Lemma scan_start_first (start : nat) (pre rest : list (nat * nat * token_type))
    (token : nat * nat * token_type) :
  Forall (fun token => is_separator token = true) pre ->
  is_separator token = false ->
  scan_start start (pre ++ token :: rest) = token.1.1.
Proof.
  intros Hpre Htok. revert start.
  induction Hpre as [|[[s l] ty] pre Hsep _ IH]; intros start.
  - destruct token as [[s l] ty]. unfold is_separator in Htok. cbn in *.
    by rewrite Htok.
  - unfold is_separator in Hsep. cbn in *. rewrite Hsep. apply IH.
Qed.

Lemma scan_end_last (end_ : nat) (rest post : list (nat * nat * token_type))
    (token : nat * nat * token_type) :
  Forall (fun token => is_separator token = true) post ->
  is_separator token = false ->
  scan_end end_ (rev (rest ++ token :: post)) = token.1.1 + token.1.2.
Proof.
  intros Hpost Htok. rewrite rev_app_distr. cbn [rev]. rewrite <- app_assoc.
  apply Forall_rev in Hpost. revert end_.
  induction Hpost as [|[[s l] ty] rpost Hsep _ IH]; intros end_.
  - destruct token as [[s l] ty]. unfold is_separator in Htok. cbn in *.
    by rewrite Htok.
  - unfold is_separator in Hsep. cbn in *. rewrite Hsep. apply IH.
Qed.

(** On separators only, the first loop runs to the end of the last
    token and the second to the start of the first. *)
Lemma scan_start_separators (start : nat) (tokens : list (nat * nat * token_type)) :
  Forall (fun token => is_separator token = true) tokens ->
  scan_start start tokens
  = match last tokens with Some token => token.1.1 + token.1.2 | None => start end.
Proof.
  intros Hall. revert start.
  induction Hall as [|[[s l] ty] tokens Hsep _ IH]; intros start; [done|].
  unfold is_separator in Hsep. cbn in Hsep. cbn [scan_start]. rewrite Hsep, IH.
  destruct tokens as [|token tokens]; [done|].
  rewrite last_cons_cons.
  destruct (last (token :: tokens)) eqn:Hlast; [done|]. by apply last_None in Hlast.
Qed.

Lemma scan_end_separators (end_ : nat) (rtokens : list (nat * nat * token_type)) :
  Forall (fun token => is_separator token = true) rtokens ->
  scan_end end_ rtokens
  = match last rtokens with Some token => token.1.1 | None => end_ end.
Proof.
  intros Hall. revert end_.
  induction Hall as [|[[s l] ty] rtokens Hsep _ IH]; intros end_; [done|].
  unfold is_separator in Hsep. cbn in Hsep. cbn [scan_end]. rewrite Hsep, IH.
  destruct rtokens as [|token rtokens]; [done|].
  rewrite last_cons_cons.
  destruct (last (token :: rtokens)) eqn:Hlast; [done|]. by apply last_None in Hlast.
Qed.





(* ===================================================================== *)
(** ** Further properties                                                 *)
(* ===================================================================== *)

(** [minimal_components] is true exactly when one of the pairs
    road & house_number, road & house, road & postcode is in the dict in
    full. *)
Theorem minimal_components_spec (m : components) :
  minimal_components m = true <->
  (is_Some (m !! "road") /\ is_Some (m !! "house_number")) \/
  (is_Some (m !! "road") /\ is_Some (m !! "house")) \/
  (is_Some (m !! "road") /\ is_Some (m !! "postcode")).
Proof. apply minimal_components_iff. Qed.

(** With [minimal_only] on and a record that holds an address template,
    a dict that has none of the pairs in full once its keys are
    normalized makes [format_address] return no-result. *)
Theorem format_address_minimal_only
    (E : Collaborators) (splitter : string) (config : rule_table)
    (country : string) (r : template_record) (t : string) (tc ra : bool) (σ : components) :
  config !! Py.upper country = Some (TemplateRecord r) ->
  rec_address_template r = Some t ->
  ~ ((is_Some (normalized E ra σ !! "road") /\ is_Some (normalized E ra σ !! "house_number")) \/
     (is_Some (normalized E ra σ !! "road") /\ is_Some (normalized E ra σ !! "house")) \/
     (is_Some (normalized E ra σ !! "road") /\ is_Some (normalized E ra σ !! "postcode"))) ->
  fst (format_address E splitter config country true tc ra σ) = Returned None.
Proof. apply format_address_without_pairs. Qed.

Lemma format_address_minimal_only_witness :
  fst (Demo.format Demo.config "es" true true true Demo.paris) = Returned None.
Proof.
  apply (format_address_minimal_only Reference.collaborators " | " Demo.config "es"
           Demo.es_record (add_suburb_tags Demo.es_template) true true Demo.paris).
  - vm_compute. reflexivity.
  - reflexivity.
  - assert (normalized Reference.collaborators true Demo.paris !! "road" = None) as ->
      by (vm_compute; reflexivity).
    intros [[[? [=]] _]|[[[? [=]] _]|[[? [=]] _]]].
Defined.

(** A token without a slash in front of the first token that is not a
    separator makes the tagged branch raise [ValueError]. *)
Theorem strip_component_tagged_untagged_token (value t : string) (rest : list string) :
  Py.split_ws value = t :: rest -> Py.rsplit1 "/" t = None ->
  strip_component_tagged value = Raised ValueError.
Proof.
  intros Hs Ht. unfold strip_component_tagged. rewrite Hs. cbn. by rewrite Ht.
Qed.

Lemma strip_component_tagged_untagged_token_witness :
  strip_component_tagged "Main St/road" = Raised ValueError.
Proof.
  apply (strip_component_tagged_untagged_token "Main St/road" "Main" ["St/road"]);
    vm_compute; reflexivity.
Defined.

(** A dict with the key [first] reaches [render_template] with the
    keyword [first] given twice: without [minimal_only], alias normalization and
    replacement rules, [format_address] raises [TypeError]. *)
Theorem format_address_first_keyword
    (E : Collaborators) (splitter : string) (config : rule_table)
    (country : string) (r : template_record) (t : string) (tc : bool) (σ : components) :
  config !! Py.upper country = Some (TemplateRecord r) ->
  rec_address_template r = Some t -> rec_replace r = None ->
  is_Some (σ !! "first") ->
  format_address E splitter config country false tc false σ = (Raised TypeError, σ).
Proof.
  intros H Ht Hr Hfirst. unfold format_address. rewrite H.
  assert (truthy (TemplateRecord r) = true) as ->.
  { cbn. unfold truthy_dict. rewrite Ht. reflexivity. }
  cbn [negb]. unfold getitem_address_template. rewrite Ht.
  unfold mbind, Mut_bind, lift, gets, mret, Mut_ret. cbn [andb].
  unfold apply_replacements, get_rules, mbind, Mut_bind, lift, mret, Mut_ret.
  rewrite Hr. unfold render_template.
  assert (dict_has "first" (if tc then tag_components_dict E (id σ) else id σ) = true) as ->;
    [|reflexivity].
  apply dict_has_true. unfold id. destruct tc; [|done].
  unfold tag_components_dict. rewrite map_lookup_imap.
  destruct Hfirst as [v ->]. by eexists.
Qed.

Lemma format_address_first_keyword_witness :
  Demo.format Demo.config "es" false true false (<["first" := "1"]> Demo.main_street)
  = (Raised TypeError, <["first" := "1"]> Demo.main_street).
Proof.
  apply (format_address_first_keyword Reference.collaborators " | " Demo.config "es"
           Demo.es_record (add_suburb_tags Demo.es_template) true
           (<["first" := "1"]> Demo.main_street)).
  - vm_compute. reflexivity.
  - reflexivity.
  - reflexivity.
  - vm_compute. by eexists.
Defined.

(** The usage example of the class, run on the reference collaborators:
    untagged and tagged. *)
Example format_address_madrid :
  fst (Demo.format Demo.config "es" true false true Demo.madrid)
  = Returned (Some "Anticafe | Calle de la Union, 2 | 28013 Madrid") /\
  fst (Demo.format Demo.config "es" true true true Demo.madrid)
  = Returned (Some ("Anticafe/house |/FSEP Calle/road de/road la/road Union/road "
                    +:+ ",/SEP 2/house_number |/FSEP 28013/postcode Madrid/city")).
Proof. split; vm_compute; reflexivity. Qed.
(* ===================================================================== *)
(** ** Replacement rules and the effect of a call on the caller's dict     *)
(* ===================================================================== *)

Section Replacements.

Variable E : Collaborators.

Lemma rewritten_nil (value : string) : rewritten E [] value = value.
Proof. reflexivity. Qed.

Lemma apply_rules_cons (regex replacement : string) (rules : list (string * string))
    (value : string) :
  apply_rules E ((regex, replacement) :: rules) value
  = match re_sub E regex replacement value with
    | Returned text => apply_rules E rules text
    | Raised e => Raised e
    end.
Proof. reflexivity. Qed.

Lemma replace_value_cons (key regex replacement : string)
    (rules : list (string * string)) (value : string) (σ : components) :
  replace_value E key ((regex, replacement) :: rules) value σ
  = match re_sub E regex replacement value with
    | Returned text => replace_value E key rules text (<[key := text]> σ)
    | Raised e => (Raised e, σ)
    end.
Proof.
  cbn [replace_value]. unfold mbind, Mut_bind, lift, dict_setitem.
  by destruct (re_sub E regex replacement value).
Qed.

(** The inner loop on a key that holds the value: the dict afterwards
    holds the value as the first [n] rules have rewritten it, all of
    them when no rule raises. *)
Lemma replace_value_run (key : string) (rules : list (string * string))
    (value : string) (σ : components) :
  σ !! key = Some value ->
  exists n text,
    apply_rules E (take n rules) value = Returned text /\
    snd (replace_value E key rules value σ) = <[key := text]> σ /\
    match apply_rules E rules value with
    | Returned text' => fst (replace_value E key rules value σ) = Returned tt /\ text' = text
    | Raised e => fst (replace_value E key rules value σ) = Raised e
    end.
Proof.
  revert value σ. induction rules as [|[regex replacement] rules IH]; intros value σ Hv.
  { exists 0, value. cbn. by rewrite insert_id. }
  rewrite replace_value_cons, apply_rules_cons.
  destruct (re_sub E regex replacement value) as [v1|e] eqn:Hsub.
  - destruct (IH v1 (<[key := v1]> σ)) as (n & text & Hn & Hsnd & Hfst).
    { apply lookup_insert_eq. }
    exists (S n), text. cbn [take]. rewrite apply_rules_cons, Hsub.
    split; [done|]. split; [by rewrite Hsnd, insert_insert_eq|done].
  - exists 0, value. cbn [take apply_rules fst snd]. by rewrite insert_id.
Qed.

(** The outer loop over keys that still hold their original values. *)
Lemma for_each_replace_value (rules : list (string * string)) (σ0 : components)
    (ks : list string) (σ : components) :
  NoDup ks ->
  (forall k, k ∈ ks -> is_Some (σ0 !! k) /\ σ !! k = σ0 !! k) ->
  partly_rewritten E rules σ0 σ ->
  let result :=
    for_each ks (fun key => value ← dict_getitem key; replace_value E key rules value) σ in
  partly_rewritten E rules σ0 (snd result) /\
  (forall k, k ∉ ks -> snd result !! k = σ !! k) /\
  match fst result with
  | Returned _ =>
      forall k v, k ∈ ks -> σ0 !! k = Some v ->
        exists text, apply_rules E rules v = Returned text /\ snd result !! k = Some text
  | Raised e =>
      exists k v, k ∈ ks /\ σ0 !! k = Some v /\ apply_rules E rules v = Raised e
  end.
Proof.
  revert σ. induction ks as [|j ks IH]; intros σ Hnd Hks Hpart; cbv zeta.
  { cbn. split; [done|]. split; [done|]. intros k v Hk. by apply elem_of_nil in Hk. }
  apply NoDup_cons in Hnd as [Hj Hnd].
  destruct (Hks j) as [[v Hv0] Hv]; [left|]. rewrite Hv0 in Hv.
  destruct (replace_value_run j rules v σ Hv) as (n & text & Hn & Hsnd & Hfst).
  assert (partly_rewritten E rules σ0 (<[j := text]> σ)) as Hpart1.
  { intros k. destruct (decide (k = j)) as [->|Hne].
    - rewrite Hv0, lookup_insert_eq. eauto.
    - rewrite lookup_insert_ne by done. apply Hpart. }
  assert (for_each (j :: ks)
            (fun key => value ← dict_getitem key; replace_value E key rules value) σ
          = match replace_value E j rules v σ with
            | (Returned _, σ') =>
                for_each ks
                  (fun key => value ← dict_getitem key; replace_value E key rules value) σ'
            | (Raised e, σ') => (Raised e, σ')
            end) as ->.
  { cbn [for_each]. unfold mbind at 1, Mut_bind at 1.
    unfold mbind at 1, Mut_bind at 1, dict_getitem at 1. by rewrite Hv. }
  destruct (replace_value E j rules v σ) as [res σ1] eqn:Hrun. cbn [fst snd] in *.
  subst σ1. destruct (apply_rules E rules v) as [text'|e] eqn:Hall.
  - destruct Hfst as [-> ->].
    destruct (IH (<[j := text]> σ) Hnd) as (IH1 & IH2 & IH3); [|done|].
    { intros k Hk. assert (k <> j) by (intros ->; done).
      rewrite lookup_insert_ne by done. apply Hks. by right. }
    cbv zeta in IH1, IH2, IH3.
    set (result := for_each ks _ _) in *.
    split; [done|]. split.
    + intros k Hk. apply not_elem_of_cons in Hk as [Hne Hk].
      rewrite IH2 by done. by rewrite lookup_insert_ne.
    + destruct (fst result) as [[]|e].
      * intros k w [->|Hk]%elem_of_cons Hw.
        -- rewrite Hv0 in Hw. injection Hw as <-. exists text.
           split; [done|]. rewrite IH2 by done. apply lookup_insert_eq.
        -- by apply IH3.
      * destruct IH3 as (k & w & Hk & Hw & He). exists k, w.
        split; [by right|done].
  - rewrite Hfst. cbn [fst snd]. split; [done|]. split.
    + intros k Hk. apply not_elem_of_cons in Hk as [Hne Hk]. by rewrite lookup_insert_ne.
    + exists j, v. split; [left|done].
Qed.

Lemma partly_rewritten_refl (rules : list (string * string)) (σ : components) :
  partly_rewritten E rules σ σ.
Proof. intros k. destruct (σ !! k) as [v|] eqn:Hv; [|done]. by exists 0, v. Qed.

Lemma apply_replacements_unfold (r : template_record) (σ : components) :
  apply_replacements E (TemplateRecord r) σ
  = match rec_replace r with
    | None | Some [] => (Returned tt, σ)
    | Some rules =>
        for_each (dict_keys E σ)
          (fun key => value ← dict_getitem key; replace_value E key rules value) σ
    end.
Proof.
  unfold apply_replacements, get_rules, lift. unfold mbind at 1, Mut_bind at 1.
  by destruct (rec_replace r) as [[|rule rules]|].
Qed.

(** [apply_replacements] on a mapping of the table. *)
Lemma apply_replacements_run (r : template_record) (σ : components) :
  let rules := default [] (rec_replace r) in
  let result := apply_replacements E (TemplateRecord r) σ in
  partly_rewritten E rules σ (snd result) /\
  (fst result = Returned tt <-> forall k v, σ !! k = Some v -> rewrites E rules v) /\
  (fst result = Returned tt -> snd result = rewritten E rules <$> σ) /\
  (forall e, fst result = Raised e ->
     exists k v, σ !! k = Some v /\ apply_rules E rules v = Raised e).
Proof.
  cbv zeta. rewrite apply_replacements_unfold.
  assert (rewritten E [] <$> σ = σ) as Hid.
  { apply map_eq. intros i. rewrite lookup_fmap. by destruct (σ !! i). }
  assert (forall k v, σ !! k = Some v -> rewrites E [] v) as Hnil
    by (intros k v _; by exists v).
  destruct (rec_replace r) as [[|rule rules]|]; cbn [default]; unfold id.
  - cbn. rewrite Hid. repeat split; try done. apply partly_rewritten_refl.
  - destruct (for_each_replace_value (rule :: rules) σ (dict_keys E σ) σ)
      as (H1 & H2 & H3).
    { apply dict_keys_NoDup. }
    { intros k Hk. apply dict_keys_elem in Hk. done. }
    { apply partly_rewritten_refl. }
    cbv zeta in H1, H2, H3. set (result := for_each _ _ _) in *.
    split; [done|].
    assert (fst result = Returned tt ->
            forall k v, σ !! k = Some v ->
              exists text, apply_rules E (rule :: rules) v = Returned text /\
                           snd result !! k = Some text) as Hret.
    { intros Hres k v Hv. rewrite Hres in H3. apply H3; [|done].
      apply dict_keys_elem. eauto. }
    split; [split|split].
    + intros Hres k v Hv. destruct (Hret Hres k v Hv) as (text & Htext & _).
      by exists text.
    + intros Hall. destruct (fst result) as [[]|e]; [done|].
      destruct H3 as (k & v & _ & Hv & He).
      destruct (Hall k v Hv) as [text Htext]. congruence.
    + intros Hres. apply map_eq. intros k. rewrite lookup_fmap.
      destruct (σ !! k) as [v|] eqn:Hv.
      * destruct (Hret Hres k v Hv) as (text & Htext & ->).
        change (rewritten E (rule :: rules) <$> Some v)
          with (Some (rewritten E (rule :: rules) v)).
        unfold rewritten. by rewrite Htext.
      * specialize (H1 k). by rewrite Hv in H1.
    + intros e He. rewrite He in H3. destruct H3 as (k & v & _ & Hv & Hraise). eauto.
  - cbn. rewrite Hid. repeat split; try done. apply partly_rewritten_refl.
Qed.

(** [apply_replacements] on a mapping of the table.  Whether it returns
    or raises, the dict keeps its keys and holds under each key the
    value as the first rules of [replace] have rewritten it, for some
    number of them.  It returns exactly when no rule raises on any
    value, and then every value is rewritten by all rules in list
    order, whatever the order of the keys; an exception that it raises
    is the exception of the rules on one of the values.  Without rules
    the dict is left as it is. *)
Theorem apply_replacements_effect (r : template_record) (σ : components) :
  let rules := default [] (rec_replace r) in
  let result := apply_replacements E (TemplateRecord r) σ in
  partly_rewritten E rules σ (snd result) /\
  (fst result = Returned tt <-> forall k v, σ !! k = Some v -> rewrites E rules v) /\
  (fst result = Returned tt -> snd result = rewritten E rules <$> σ) /\
  (forall e, fst result = Raised e ->
     exists k v, σ !! k = Some v /\ apply_rules E rules v = Raised e).
Proof. apply apply_replacements_run. Qed.

(** [format_address] up to the call of [render_template], for a record
    with an address template. *)
Lemma format_address_steps
    (splitter : string) (config : rule_table) (country : string)
    (r : template_record) (t : string) (mo tc ra : bool) (σ : components) :
  config !! Py.upper country = Some (TemplateRecord r) ->
  rec_address_template r = Some t ->
  format_address E splitter config country mo tc ra σ
  = if mo && negb (minimal_components (normalized E ra σ))
    then (Returned None, normalized E ra σ)
    else match apply_replacements E (TemplateRecord r) (normalized E ra σ) with
         | (Returned _, σ') =>
             match render_template E splitter
                     (if tc then tag_template_separators t else t)
                     (if tc then tag_components_dict E σ' else σ') tc with
             | Returned text =>
                 match post_replacements E splitter (TemplateRecord r) text with
                 | Returned text' => (Returned (Some text'), σ')
                 | Raised e => (Raised e, σ')
                 end
             | Raised e => (Raised e, σ')
             end
         | (Raised e, σ') => (Raised e, σ')
         end.
Proof.
  intros H Ht. unfold format_address. rewrite H.
  assert (truthy (TemplateRecord r) = true) as ->.
  { cbn. unfold truthy_dict. rewrite Ht. reflexivity. }
  cbn [negb]. unfold getitem_address_template. rewrite Ht.
  unfold mbind at 1, Mut_bind at 1, lift.
  unfold mbind at 1, Mut_bind at 1.
  assert ((if ra then replace_aliases E else mret ()) σ = (Returned tt, normalized E ra σ))
    as ->.
  { unfold normalized. destruct ra; [apply replace_aliases_run|reflexivity]. }
  unfold mbind at 1, Mut_bind at 1, gets.
  destruct (mo && negb (minimal_components (normalized E ra σ))); [reflexivity|].
  unfold mbind at 1, Mut_bind at 1.
  destruct (apply_replacements E (TemplateRecord r) (normalized E ra σ)) as [[[]|e] σ'];
    [|reflexivity].
  unfold mbind at 1, Mut_bind at 1. unfold id.
  unfold mbind at 1, Mut_bind at 1.
  destruct (render_template _ _ _ _ _) as [text|e]; [|reflexivity].
  unfold mbind at 1, Mut_bind at 1.
  destruct (post_replacements _ _ _ _) as [text'|e]; reflexivity.
Qed.

(** What a call of [format_address] leaves in the caller's dict, for a
    country whose record has an address template.  When the call stops
    for want of minimal components, it is the dict with its aliases
    normalized (when that is on).  Otherwise it has the keys of the
    normalized dict and under each key the value as the first [replace]
    rules have rewritten it, for some number of them: all of them when
    no rule raises on any value, and so whenever the call returns a
    string.  Tagging, rendering and post-processing do not touch the
    dict, whether they return or raise. *)
Theorem format_address_effect
    (splitter : string) (config : rule_table) (country : string)
    (r : template_record) (t : string) (mo tc ra : bool) (σ : components) :
  config !! Py.upper country = Some (TemplateRecord r) ->
  rec_address_template r = Some t ->
  let rules := default [] (rec_replace r) in
  let result := format_address E splitter config country mo tc ra σ in
  if mo && negb (minimal_components (normalized E ra σ))
  then result = (Returned None, normalized E ra σ)
  else
    partly_rewritten E rules (normalized E ra σ) (snd result) /\
    ((forall k v, normalized E ra σ !! k = Some v -> rewrites E rules v) ->
     snd result = rewritten E rules <$> normalized E ra σ) /\
    (forall text, fst result = Returned (Some text) ->
     snd result = rewritten E rules <$> normalized E ra σ).
Proof.
  intros H Ht. cbv zeta. rewrite (format_address_steps _ _ _ r t) by done.
  destruct (mo && negb (minimal_components (normalized E ra σ))); [reflexivity|].
  destruct (apply_replacements_run r (normalized E ra σ)) as (H1 & H2 & H3 & H4).
  cbv zeta in H1, H2, H3, H4.
  destruct (apply_replacements E (TemplateRecord r) (normalized E ra σ)) as [[[]|e] σ'];
    cbn [fst snd] in *.
  - match goal with |- context [snd ?m] => set (rest := m) end.
    assert (snd rest = σ') as ->.
    { unfold rest. destruct (render_template _ _ _ _ _) as [text|e]; [|done].
      by destruct (post_replacements _ _ _ _). }
    split; [done|]. split; intros; by apply H3.
  - split; [done|]. split; [|done].
    intros Hall. apply H2 in Hall. done.
Qed.

End Replacements.

Lemma format_address_effect_witness :
  let rules := default [] (rec_replace Demo.abbreviating_record) in
  let result := Demo.format Demo.rules_config "gb" true true true Demo.saint_street in
  if true && negb (minimal_components
                     (normalized Reference.collaborators true Demo.saint_street))
  then result = (Returned None, normalized Reference.collaborators true Demo.saint_street)
  else
    partly_rewritten Reference.collaborators rules
      (normalized Reference.collaborators true Demo.saint_street) (snd result) /\
    ((forall k v, normalized Reference.collaborators true Demo.saint_street !! k = Some v ->
                  rewrites Reference.collaborators rules v) ->
     snd result = rewritten Reference.collaborators rules
                  <$> normalized Reference.collaborators true Demo.saint_street) /\
    (forall text, fst result = Returned (Some text) ->
     snd result = rewritten Reference.collaborators rules
                  <$> normalized Reference.collaborators true Demo.saint_street).
Proof.
  apply (format_address_effect Reference.collaborators " | " Demo.rules_config "gb"
           Demo.abbreviating_record "{{{road}}} {{{house_number}}}" true true true
           Demo.saint_street).
  - vm_compute. reflexivity.
  - reflexivity.
Defined.

(** The rules at work: every value is rewritten by both rules; with a
    second rule that does not compile the call raises, and the dict is
    left with the values that the first rule has rewritten so far. *)
Example apply_replacements_examples :
  apply_replacements Reference.collaborators (TemplateRecord Demo.abbreviating_record)
    Demo.saint_street
  = (Returned tt, <["road" := "St John St"]> (<["house_number" := "5"]> ∅)) /\
  Demo.format Demo.rules_config "gb" false false false Demo.saint_street
  = (Returned (Some "St John St 5"),
     <["road" := "St John St"]> (<["house_number" := "5"]> ∅)) /\
  Demo.format Demo.rules_config "zz" false false false
    (<["road" := "Main Street"]> ∅)
  = (Raised (LibraryError "sre_constants.error"), <["road" := "Main St"]> ∅).
Proof. repeat split; vm_compute; reflexivity. Qed.

(* ===================================================================== *)
(** ** More on alias normalization                                        *)
(* ===================================================================== *)

Section Normalization.

Variable E : Collaborators.

Lemma rename_step_size (σ : components) (k : string) :
  size (rename_step σ k) = size σ.
Proof.
  unfold rename_step. destruct (aliases_get k) as [c|]; [|done].
  destruct (truthy_string c && negb (dict_has c σ)) eqn:Hb; [|done].
  apply andb_true_iff in Hb as [_ Hn]. apply negb_true_iff, dict_has_false in Hn.
  destruct (σ !! k) as [v|] eqn:Hk; [|done].
  assert (c <> k) by (intros ->; congruence).
  rewrite map_size_insert_None by (by rewrite lookup_delete_ne).
  rewrite (map_size_delete_Some k σ) by by eexists.
  assert (size σ <> 0) by (intros Hz; apply map_size_empty_inv in Hz; by subst).
  lia.
Qed.

Lemma rename_all_size (ks : list string) (σ : components) :
  size (rename_all ks σ) = size σ.
Proof.
  revert σ. induction ks as [|j ks IH]; intros σ; [done|].
  by rewrite rename_all_cons, IH, rename_step_size.
Qed.

(** A visited raw key is gone, or its canonical name is a key. *)
Lemma rename_all_settles (ks : list string) (σ : components) (k c : string) :
  aliases_get k = Some c -> k ∈ ks ->
  rename_all ks σ !! k = None \/ is_Some (rename_all ks σ !! c).
Proof.
  intros Ha. pose proof (aliases_canonical _ _ Ha) as [Hc Ht].
  revert σ. induction ks as [|j ks IH]; intros σ Hin.
  { by apply elem_of_nil in Hin. }
  rewrite rename_all_cons. destruct (decide (k = j)) as [<-|Hne].
  - destruct (σ !! k) as [v|] eqn:Hk.
    + destruct (rename_all_renamed_or_kept (k :: ks) σ k c v Ha Hk) as [Hkept|[Hgone _]].
      * rewrite rename_all_cons in Hkept.
        destruct (σ !! c) as [w|] eqn:Hw.
        -- right. exists w.
           exact (proj2 (rename_all_canonical_present (k :: ks) σ k c v w Ha Hk Hw)).
        -- exfalso.
           assert (rename_step σ k = <[c := v]> (delete k σ)) as Hs.
           { unfold rename_step. rewrite Ha, Ht, Hk.
             assert (dict_has c σ = false) as -> by by apply dict_has_false. done. }
           rewrite Hs in Hkept.
           erewrite rename_all_absent_alias in Hkept; [done|done|].
           rewrite lookup_insert_ne by (intros ->; congruence). apply lookup_delete_eq.
      * left. by rewrite rename_all_cons in Hgone.
    + left. eapply rename_all_absent_alias; [done|].
      by eapply rename_step_absent_alias.
  - apply IH. apply elem_of_cons in Hin as [?|?]; [congruence|done].
Qed.

(** After one run, no entry is left that another run would rename. *)
Lemma rename_all_settled (σ : components) (k c : string) :
  aliases_get k = Some c ->
  is_Some (rename_all (dict_keys E σ) σ !! k) ->
  is_Some (rename_all (dict_keys E σ) σ !! c).
Proof.
  intros Ha [v Hv].
  assert (k ∈ dict_keys E σ) as Hin.
  { apply dict_keys_elem. destruct (σ !! k) eqn:Hk; [eauto|].
    erewrite rename_all_absent_alias in Hv; done. }
  destruct (rename_all_settles _ σ k c Ha Hin) as [Hn|Hc]; [congruence|done].
Qed.

Lemma rename_all_fixed (ks : list string) (σ : components) :
  (forall k c, aliases_get k = Some c -> is_Some (σ !! k) -> is_Some (σ !! c)) ->
  rename_all ks σ = σ.
Proof.
  intros Hset. induction ks as [|j ks IH]; [done|].
  rewrite rename_all_cons.
  assert (rename_step σ j = σ) as ->; [|done].
  unfold rename_step. destruct (aliases_get j) as [c|] eqn:Ha; [|done].
  destruct (σ !! j) as [v|] eqn:Hj.
  - assert (dict_has c σ = true) as ->.
    { apply dict_has_true. eapply Hset; [done|]. by eexists. }
    by rewrite andb_false_r.
  - by destruct (truthy_string c && negb (dict_has c σ)).
Qed.

(** [replace_aliases] is idempotent: a second run on the dict that the
    first run has left returns and changes nothing, whatever the order in
    which either run visits the keys. *)
Theorem replace_aliases_idempotent (σ : components) :
  exists σ', replace_aliases E σ = (Returned tt, σ') /\
             replace_aliases E σ' = (Returned tt, σ').
Proof.
  eexists. split; [apply replace_aliases_run|].
  rewrite replace_aliases_run. f_equal.
  apply rename_all_fixed. intros k c. apply rename_all_settled.
Qed.

(** [replace_aliases] renames entries and nothing else: the dict has as
    many entries afterwards as before. *)
Theorem replace_aliases_size (σ : components) :
  exists σ', replace_aliases E σ = (Returned tt, σ') /\ size σ' = size σ.
Proof.
  eexists. split; [apply replace_aliases_run|]. apply rename_all_size.
Qed.

(** Alias normalization cannot take the minimal components away: a dict
    that has them has them when [format_address] consults
    [minimal_components], normalized or not. *)
Theorem minimal_components_normalized (ra : bool) (σ : components) :
  minimal_components σ = true -> minimal_components (normalized E ra σ) = true.
Proof.
  intros Hm. destruct ra; [|done]. unfold normalized.
  assert (forall k, aliases_get k = None -> is_Some (σ !! k) ->
            is_Some (rename_all (dict_keys E σ) σ !! k)) as Hkeep.
  { intros k Ha [v Hv]. exists v. by apply rename_all_no_alias. }
  apply minimal_components_iff in Hm. apply minimal_components_iff.
  destruct Hm as [[H1 H2]|[[H1 H2]|[H1 H2]]];
    [left|right; left|right; right]; split; by apply Hkeep.
Qed.

End Normalization.

Lemma minimal_components_normalized_witness :
  minimal_components (normalized Reference.collaborators true Demo.main_street) = true.
Proof.
  apply (minimal_components_normalized Reference.collaborators true Demo.main_street).
  vm_compute. reflexivity.
Defined.

(* ===================================================================== *)
(** ** Loading the table, and looking a country up                        *)
(* ===================================================================== *)

Section Load.
Import Py PyFacts.

Lemma startswith_app_l (n s t : string) :
  startswith n s = true -> startswith n (s +:+ t) = true.
Proof.
  revert s. induction n as [|a n IH]; intros s H; [done|].
  destruct s as [|b s]; [done|]. rewrite sapp_cons. cbn [startswith] in *.
  destruct (Ascii.eqb a b); [by apply IH|done].
Qed.

Lemma contains_app_l (n s t : string) :
  contains n s = true -> contains n (s +:+ t) = true.
Proof.
  induction s as [|c s IH]; intros H.
  - cbn [contains] in H. rewrite orb_false_r in H.
    destruct n; [|done]. by destruct t.
  - rewrite sapp_cons. cbn [contains] in *.
    apply orb_true_iff in H as [H|H]; apply orb_true_iff.
    + left. by apply (startswith_app_l n (String c s) t).
    + right. by apply IH.
Qed.

Lemma contains_app_r (n s t : string) :
  contains n t = true -> contains n (s +:+ t) = true.
Proof.
  intros H. induction s as [|c s IH]; [done|].
  rewrite sapp_cons. cbn [contains]. rewrite IH. apply orb_true_r.
Qed.

Lemma contains_join (n sep p : string) (parts : list string) :
  In p parts -> contains n p = true -> contains n (join sep parts) = true.
Proof.
  intros Hin Hp. induction parts as [|q [|q' parts] IH]; [done| |].
  - destruct Hin as [->|[]]. done.
  - rewrite join_cons. destruct Hin as [->|Hin].
    + by apply contains_app_l.
    + apply contains_app_r, contains_app_r. by apply IH.
Qed.

Lemma add_suburb_tags_twice (template : string) :
  add_suburb_tags (add_suburb_tags template) = add_suburb_tags template.
Proof.
  destruct (decide (Exists (fun line => suburb_follows template line = true)
                           (split Demo.NL template))) as [Hex|Hno].
  - apply add_suburb_tags_included. rewrite add_suburb_tags_lines.
    apply Exists_exists in Hex as (line & Hin & Hline).
    apply contains_join with (p := suburb_line); [|vm_compute; reflexivity].
    apply in_flat_map. exists line. split; [by apply list_elem_of_In|].
    rewrite Hline. right. by left.
  - assert (add_suburb_tags template = template) as Heq; [|by rewrite !Heq].
    rewrite add_suburb_tags_lines.
    rewrite (flat_map_ext_Forall _ (fun x => [x])).
    + rewrite flat_map_singleton. by apply join_split.
    + apply List.Forall_Exists_neg in Hno. eapply Forall_impl; [exact Hno|].
      intros line Hline. cbv beta in *. by destruct (suburb_follows template line).
Qed.

(** [add_suburb_tags] is idempotent: a template that has been through it
    is stored as it is when it goes through it again. *)
Theorem add_suburb_tags_idempotent (template : string) :
  add_suburb_tags (add_suburb_tags template) = add_suburb_tags template.
Proof. apply add_suburb_tags_twice. Qed.

(** Replacing a character by a text without it leaves none, and leaves a
    text without it as it is. *)
Lemma replace_char_gone (x : ascii) (rep s : string) :
  has_char x rep = false -> has_char x (replace (String x "") rep s) = false.
Proof.
  intros Hrep. induction s as [|c s IH]; [done|].
  destruct (Ascii.eqb x c) eqn:Hx.
  - apply Ascii.eqb_eq in Hx as <-.
    change (String x s) with (String x "" +:+ s). rewrite replace_hit by done.
    by rewrite has_char_app, Hrep, IH.
  - rewrite replace_miss by (cbn [startswith]; by rewrite Hx).
    cbn [has_char]. by rewrite IH, Ascii.eqb_sym, Hx.
Qed.

Lemma replace_char_absent (x : ascii) (rep s : string) :
  has_char x s = false -> replace (String x "") rep s = s.
Proof.
  induction s as [|c s IH]; [done|]. cbn [has_char]. intros H.
  apply orb_false_iff in H as [Hc Hs].
  rewrite replace_miss by (cbn [startswith]; by rewrite Ascii.eqb_sym, Hc).
  by rewrite IH.
Qed.

Lemma load_config_value_idempotent (value : config_value) :
  load_config_value (load_config_value value) = load_config_value value.
Proof.
  destruct value as [s|[t rr pr ok]];
    cbn [load_config_value rec_address_template rec_replace
         rec_postformat_replace rec_other_keys].
  { by rewrite add_suburb_tags_twice. }
  f_equal. f_equal.
  - destruct t as [[|c t]|]; [done| |done]. cbn [truthy_string].
    assert (truthy_string (add_suburb_tags (String c t)) = true) as ->.
    { pose proof (add_suburb_tags_nonempty (String c t)) as Hne.
      destruct (add_suburb_tags (String c t)); [by destruct Hne|done]. }
    by rewrite add_suburb_tags_twice.
  - set (f := fun '(pattern, replacement) => (pattern, replace "$" "\" replacement)).
    assert (forall rule : string * string, f (f rule) = f rule) as Hf.
    { intros [p rep]. unfold f.
      by rewrite (replace_char_absent "$") by by apply replace_char_gone. }
    destruct pr as [[|rule rules]|]; [done| |done]. cbn [map]. cbv iota. cbn [map].
    rewrite Hf, map_map. f_equal. f_equal. by apply map_ext.
Qed.

(** [load_config] is idempotent: loading what has been loaded changes
    neither a template nor a replacement. *)
Theorem load_config_idempotent (yaml : rule_table) :
  load_config (load_config yaml) = load_config yaml.
Proof.
  unfold load_config. rewrite <- map_fmap_compose. apply map_fmap_ext.
  intros k v _. apply load_config_value_idempotent.
Qed.

(** [load_config] keeps every rule of a mapping: the [replace] rules as
    they are, the [postformat_replace] rules with their patterns, in
    order, and with replacements that have no dollar sign left. *)
Theorem load_config_rules (yaml : rule_table) (k : string)
    (r0 : template_record) (rules0 : list (string * string)) :
  yaml !! k = Some (TemplateRecord r0) ->
  rec_postformat_replace r0 = Some rules0 ->
  exists r rules,
    load_config yaml !! k = Some (TemplateRecord r) /\
    rec_replace r = rec_replace r0 /\
    rec_postformat_replace r = Some rules /\
    map fst rules = map fst rules0 /\
    Forall (fun rule => has_char "$" (snd rule) = false) rules.
Proof.
  intros H Hr. unfold load_config. rewrite lookup_fmap, H.
  destruct r0 as [t rr pr ok]. cbn [rec_postformat_replace] in Hr. subst pr.
  cbn [fmap option_fmap option_map load_config_value rec_address_template
       rec_replace rec_postformat_replace rec_other_keys].
  set (f := fun '(pattern, replacement) => (pattern, replace "$" "\" replacement)).
  assert (map fst (map f rules0) = map fst rules0) as Hfst.
  { rewrite map_map. apply map_ext. by intros [p rep]. }
  assert (Forall (fun rule => has_char "$" (snd rule) = false) (map f rules0)) as Hsnd.
  { apply Forall_forall. intros [p rep] Hin.
    apply list_elem_of_In, in_map_iff in Hin as ([p0 rep0] & Heq & _).
    unfold f in Heq. injection Heq as <- <-. by apply replace_char_gone. }
  destruct rules0 as [|rule rules0].
  - eexists _, []. repeat split; constructor.
  - eexists _, (map f (rule :: rules0)). repeat split; done.
Qed.

(** *** The letter case of the country code *)

Lemma upper_char_lower_char (c : ascii) : upper_char (lower_char c) = upper_char c.
Proof. destruct c as [[] [] [] [] [] [] [] []]; vm_compute; reflexivity. Qed.

Lemma upper_char_idem (c : ascii) : upper_char (upper_char c) = upper_char c.
Proof. destruct c as [[] [] [] [] [] [] [] []]; vm_compute; reflexivity. Qed.

Lemma upper_char_not_lower (c : ascii) : is_lower (upper_char c) = false.
Proof. destruct c as [[] [] [] [] [] [] [] []]; vm_compute; reflexivity. Qed.

Lemma upper_lower (s : string) : upper (lower s) = upper s.
Proof.
  induction s as [|c s IH]; [done|]. cbn. f_equal; [apply upper_char_lower_char|done].
Qed.

Lemma upper_idem (s : string) : upper (upper s) = upper s.
Proof.
  induction s as [|c s IH]; [done|]. cbn. f_equal; [apply upper_char_idem|done].
Qed.

Lemma upper_has_no_lower (s : string) : has_lower (upper s) = false.
Proof.
  induction s as [|c s IH]; [done|].
  change (is_lower (upper_char c) || has_lower (upper s) = false).
  by rewrite upper_char_not_lower, IH.
Qed.

End Load.

(** The country code is looked up without regard to the case of its
    ASCII letters: the code in lower case and in upper case gives what
    the code as written gives. *)
Theorem format_address_case_insensitive
    (E : Collaborators) (splitter : string) (config : rule_table)
    (country : string) (mo tc ra : bool) (σ : components) :
  format_address E splitter config (Py.lower country) mo tc ra σ
  = format_address E splitter config country mo tc ra σ /\
  format_address E splitter config (Py.upper country) mo tc ra σ
  = format_address E splitter config country mo tc ra σ.
Proof.
  unfold format_address. by rewrite upper_lower, upper_idem.
Qed.

(** An entry of the table whose key has a lower-case letter, such as
    [default], is out of reach of [format_address]: no country code
    makes the call read it. *)
Theorem format_address_never_reads_lowercase_key
    (E : Collaborators) (splitter : string) (config : rule_table)
    (k : string) (v : config_value)
    (country : string) (mo tc ra : bool) (σ : components) :
  has_lower k = true ->
  format_address E splitter (<[k := v]> config) country mo tc ra σ
  = format_address E splitter config country mo tc ra σ.
Proof.
  intros Hk. unfold format_address.
  rewrite lookup_insert_ne; [done|].
  intros ->. by rewrite upper_has_no_lower in Hk.
Qed.

Lemma format_address_never_reads_lowercase_key_witness :
  Demo.format (<["default" := TemplateRecord Demo.default_record]> ∅)
              "default" true true true Demo.main_street
  = Demo.format ∅ "default" true true true Demo.main_street.
Proof.
  apply (format_address_never_reads_lowercase_key Reference.collaborators " | " ∅
           "default" (TemplateRecord Demo.default_record)
           "default" true true true Demo.main_street).
  reflexivity.
Defined.

Lemma load_config_rules_witness :
  exists r rules,
    load_config {["NL" := TemplateRecord
                    {| rec_address_template := Some "{{{road}}}";
                       rec_replace := None;
                       rec_postformat_replace := Some [("(\d+) (\w+)", "$2 $1"); ("^ ", "")];
                       rec_other_keys := false |}]} !! "NL"
    = Some (TemplateRecord r) /\
    rec_replace r = None /\
    rec_postformat_replace r = Some rules /\
    map fst rules = map fst [("(\d+) (\w+)", "$2 $1"); ("^ ", "")] /\
    Forall (fun rule => Py.has_char "$" (snd rule) = false) rules.
Proof.
  apply (load_config_rules
           {["NL" := TemplateRecord
                       {| rec_address_template := Some "{{{road}}}";
                          rec_replace := None;
                          rec_postformat_replace := Some [("(\d+) (\w+)", "$2 $1"); ("^ ", "")];
                          rec_other_keys := false |}]}
           "NL"
           {| rec_address_template := Some "{{{road}}}";
              rec_replace := None;
              rec_postformat_replace := Some [("(\d+) (\w+)", "$2 $1"); ("^ ", "")];
              rec_other_keys := false |}
           [("(\d+) (\w+)", "$2 $1"); ("^ ", "")]).
  - vm_compute. reflexivity.
  - reflexivity.
Defined.

(* ===================================================================== *)
(** ** Rendering                                                          *)
(* ===================================================================== *)

Section Render.
Import Py PyFacts.

Lemma lstrip_length (s : string) : String.length (lstrip s) <= String.length s.
Proof.
  induction s as [|c s IH]; [done|]. cbn [lstrip].
  destruct (is_space c); cbn; lia.
Qed.

Lemma lstrip_fixed_head (c : ascii) (s : string) :
  lstrip (String c s) = String c s -> is_space c = false.
Proof.
  intros H. destruct (is_space c) eqn:Hc; [|done]. exfalso.
  cbn [lstrip] in H. rewrite Hc in H.
  pose proof (lstrip_length s) as Hl. rewrite H in Hl. cbn in Hl. lia.
Qed.

Lemma lstrip_strip (s : string) : lstrip (strip s) = strip s.
Proof.
  unfold strip. pose proof (lstrip_head s) as Hh.
  destruct (lstrip s) as [|c t]; [done|].
  destruct (rstrip_head c t Hh) as [r ->]. cbn [lstrip]. by rewrite Hh.
Qed.

Lemma is_newline_space (c : ascii) : is_newline c = true -> is_space c = true.
Proof.
  unfold is_newline. intros [H|H]%orb_true_iff; apply Ascii.eqb_eq in H as ->; done.
Qed.

Lemma line_value_nil : line_value "".
Proof. done. Qed.

Lemma line_value_cons (c : ascii) (v : string) :
  is_space c = false -> has_char LF v = false -> has_char CR v = false ->
  line_value (String c v).
Proof.
  intros Hc Hlf Hcr.
  assert (is_newline c = false) as Hn.
  { destruct (is_newline c) eqn:Hn; [|done]. apply is_newline_space in Hn. congruence. }
  unfold is_newline in Hn. apply orb_false_iff in Hn as [H1 H2].
  repeat split.
  - cbn [lstrip]. by rewrite Hc.
  - cbn [has_char]. by rewrite H1, Hlf.
  - cbn [has_char]. by rewrite H2, Hcr.
Qed.

(** The parts of [split_lines]: after a delimiter every part is a line
    value; before the first delimiter the part has no line break, and it
    is a line value when the text does not start with white space. *)
Lemma split_lines_from_values (s : string) :
  Forall line_value (split_lines_from true s) /\
  Forall line_value (tail (split_lines_from false s)) /\
  (has_char LF (hd "" (split_lines_from false s)) = false /\
   has_char CR (hd "" (split_lines_from false s)) = false) /\
  (lstrip s = s -> line_value (hd "" (split_lines_from false s))).
Proof.
  induction s as [|c s (IHt & IHtl & [IHlf IHcr] & IHhd)].
  { repeat split; repeat constructor. }
  assert (exists p ps, split_lines_from false s = p :: ps) as (p & ps & Hs).
  { destruct s as [|d s]; [by eexists _, _|]. cbn [split_lines_from].
    destruct (is_newline d); [by eexists _, _|].
    destruct (split_lines_from false s); by eexists _, _. }
  rewrite Hs in *. cbn [hd tail] in *.
  assert (is_space c = false -> line_value (String c p)) as Hcons.
  { intros Hc. by apply line_value_cons. }
  cbn [split_lines_from]. rewrite Hs. cbn [push_char hd tail].
  split; [|split; [|split]].
  - destruct (is_space c) eqn:Hc; [done|]. constructor; [by apply Hcons|done].
  - destruct (is_newline c); [done|]. done.
  - destruct (is_newline c) eqn:Hn; [done|]. cbn [hd has_char].
    unfold is_newline in Hn. apply orb_false_iff in Hn as [H1 H2].
    by rewrite H1, H2, IHlf, IHcr.
  - intros Hl. apply lstrip_fixed_head in Hl.
    destruct (is_newline c) eqn:Hn; [apply line_value_nil|]. by apply Hcons.
Qed.

(** Every value that [render_template] cuts out of the rendered text is
    free of line breaks and does not start with white space. *)
Lemma split_lines_strip_values (s : string) :
  Forall line_value (split_lines (strip s)).
Proof.
  destruct (split_lines_from_values (strip s)) as (_ & Htl & _ & Hhd).
  unfold split_lines.
  destruct (split_lines_from false (strip s)) as [|p ps] eqn:Hs.
  { constructor. }
  constructor; [|done]. apply Hhd, lstrip_strip.
Qed.

Lemma map_outcome_returned {A B} (f : A -> B) (l : list A) :
  map_outcome (fun x => Returned (f x)) l = Returned (map f l).
Proof. induction l as [|x l IH]; [done|]. cbn. by rewrite IH. Qed.

End Render.



(** An exception of the call of [pystache.render] is the exception of
    [render_template], tagged or not; with the reference collaborators a
    dict with the key [template] gives such a call. *)
Lemma render_template_raises
    (E : Collaborators) (splitter template : string) (comps : components)
    (tagged : bool) (e : exn) :
  comps !! "first" = None ->
  pystache_raises E template comps = Some e ->
  render_template E splitter template comps tagged = Raised e.
Proof.
  intros Hfirst Hlib. unfold render_template.
  assert (dict_has "first" comps = false) as -> by by apply dict_has_false.
  by rewrite Hlib.
Qed.

Example render_template_keyword_template :
  render_template Reference.collaborators " | " "{{{road}}}"
    (<["template" := "x"]> (<["road" := "Main St"]> ∅)) false
  = Raised TypeError /\
  render_template Reference.collaborators " | " "{{{road}}}"
    (<["self" := "x"]> (<["road" := "Main St"]> ∅)) true
  = Raised TypeError.
Proof. split; vm_compute; reflexivity. Qed.



(* ===================================================================== *)
(** ** Tokens of a tagged value                                           *)
(* ===================================================================== *)

Section Tokens.
Import Py PyFacts.

Local Abbreviation word := (fun w : string => w <> "" /\ no_space w = true).

Lemma no_space_app (s t : string) :
  no_space (s +:+ t) = no_space s && no_space t.
Proof.
  induction s as [|c s IH]; [done|]. rewrite sapp_cons. cbn [no_space].
  by rewrite IH, andb_assoc.
Qed.

Lemma snoc_not_empty (w : string) (c : ascii) : w +:+ String c "" <> "".
Proof. by destruct w. Qed.

(** The tokens of [split] without argument are not empty and hold no
    white space. *)
Lemma split_ws_from_words (s : string) (cur : option string) :
  (forall w, cur = Some w -> word w) ->
  Forall word (split_ws_from cur s).
Proof.
  revert cur. induction s as [|c s IH]; intros cur Hcur; cbn [split_ws_from].
  { destruct cur as [w|]; [|constructor]. constructor; [by apply Hcur|constructor]. }
  destruct (is_space c) eqn:Hc.
  - destruct cur as [w|]; [constructor; [by apply Hcur|]|]; by apply IH.
  - apply IH. intros w' [= <-]. destruct cur as [w|].
    + destruct (Hcur w eq_refl) as [Hne Hw]. split; [apply snoc_not_empty|].
      rewrite no_space_app, Hw. cbn [no_space]. by rewrite Hc.
    + split; [done|]. cbn [no_space]. by rewrite Hc.
Qed.

Lemma split_ws_words (s : string) : Forall word (split_ws s).
Proof. by apply split_ws_from_words. Qed.

Lemma split_ws_from_word (w t r : string) :
  no_space t = true ->
  split_ws_from (Some w) (t +:+ r) = split_ws_from (Some (w +:+ t)) r.
Proof.
  revert w. induction t as [|c t IH]; intros w Ht.
  { by rewrite sapp_nil_l, sapp_nil_r. }
  cbn [no_space] in Ht. apply andb_true_iff in Ht as [Hc Ht].
  apply negb_true_iff in Hc. rewrite sapp_cons. cbn [split_ws_from]. rewrite Hc.
  rewrite IH by done. by rewrite sapp_assoc.
Qed.

Lemma split_ws_word_first (t r : string) :
  word t -> split_ws_from None (t +:+ r) = split_ws_from (Some t) r.
Proof.
  intros [Hne Ht]. destruct t as [|c t]; [done|].
  cbn [no_space] in Ht. apply andb_true_iff in Ht as [Hc Ht].
  apply negb_true_iff in Hc. rewrite sapp_cons. cbn [split_ws_from]. rewrite Hc.
  by rewrite split_ws_from_word.
Qed.

(** Splitting at white space what was joined with single spaces gives
    the tokens back. *)
Lemma split_ws_join (l : list string) :
  Forall word l -> split_ws (join " " l) = l.
Proof.
  unfold split_ws. induction 1 as [|t l Ht Hl IH]; [done|].
  destruct l as [|t' l].
  - cbn [join]. rewrite <- (sapp_nil_r t) at 1.
    by rewrite split_ws_word_first.
  - rewrite join_cons, split_ws_word_first by done.
    rewrite sapp_cons, sapp_nil_l. cbn [split_ws_from].
    change (is_space " ") with true. cbv iota. by rewrite IH.
Qed.

Lemma leading_seps_head (l : list string) :
  (forall t, head l = Some t -> is_sep_token t = false) -> leading_seps l = 0.
Proof.
  destruct l as [|t l]; [done|]. intros H. apply leading_seps_stop. by apply H.
Qed.

End Tokens.



(** A token without a slash makes the tagged branch raise [ValueError]
    when only separators stand before it, or only separators after it:
    one of the two loops reaches it. *)
Theorem strip_component_tagged_raises (value t : string) (seps rest : list string) :
  Forall (fun s => is_sep_token s = true) seps ->
  Py.rsplit1 "/" t = None ->
  Py.split_ws value = seps ++ t :: rest \/ Py.split_ws value = rest ++ t :: seps ->
  strip_component_tagged value = Raised ValueError.
Proof.
  intros Hseps Ht.
  assert (forall i j l, scan_start_tagged i j (seps ++ t :: l) = Raised ValueError) as Hfwd.
  { induction Hseps as [|s seps Hs' _ IH]; intros i j l; cbn [app scan_start_tagged].
    - by rewrite Ht.
    - unfold is_sep_token in Hs'. destruct (Py.rsplit1 "/" s) as [[a c]|]; [|done].
      rewrite Hs'. apply IH. }
  assert (forall n j e l, scan_end_tagged n j e (rev seps ++ t :: l) = Raised ValueError)
    as Hbwd.
  { apply Forall_rev in Hseps.
    induction Hseps as [|s rseps Hs' _ IH]; intros n j e l; cbn [app scan_end_tagged].
    - by rewrite Ht.
    - unfold is_sep_token in Hs'. destruct (Py.rsplit1 "/" s) as [[a c]|]; [|done].
      rewrite Hs'. apply IH. }
  assert (forall l i j e, scan_start_tagged i j l = Raised e -> e = ValueError) as Honly.
  { induction l as [|s l IH]; intros i j e; cbn [scan_start_tagged]; [done|].
    destruct (Py.rsplit1 "/" s) as [[a c]|]; [|by intros [= <-]].
    destruct (String.eqb c separator_tag); [apply IH|done]. }
  intros Hs. unfold strip_component_tagged. destruct Hs as [-> | ->].
  - by rewrite Hfwd.
  - destruct (scan_start_tagged 0 0 (rest ++ t :: seps)) as [start|e] eqn:Hstart.
    + cbn [mbind outcome_bind]. rewrite rev_app_distr. cbn [rev].
      rewrite <- app_assoc. cbn [app]. by rewrite Hbwd.
    + apply Honly in Hstart as ->. reflexivity.
Qed.

Lemma strip_component_tagged_raises_witness :
  strip_component_tagged ",/SEP Main St/road" = Raised ValueError.
Proof.
  apply (strip_component_tagged_raises ",/SEP Main St/road" "Main" [",/SEP"] ["St/road"]).
  - repeat constructor.
  - reflexivity.
  - left. vm_compute. reflexivity.
Defined.

(* ===================================================================== *)
(** ** Which names a normalized dict has, and when a string is returned    *)
(* ===================================================================== *)

Section Results.

Variable E : Collaborators.

Lemma rename_all_origin (ks : list string) (σ : components) (c : string) :
  is_Some (rename_all ks σ !! c) -> supplies σ c.
Proof.
  revert σ. induction ks as [|j ks IH]; intros σ Hc; [by left|].
  rewrite rename_all_cons in Hc. apply IH in Hc as [Hc|(k & Ha & Hk)].
  - destruct (rename_step_lookup σ j c) as [Heq|[(_ & _ & Hn)|(Hj & _ & Heq & _)]].
    + left. by rewrite <- Heq.
    + rewrite Hn in Hc. by destruct Hc.
    + right. exists j. split; [done|]. by rewrite <- Heq.
  - right. exists k. split; [done|].
    destruct (rename_step_lookup σ j k) as [Heq|[(_ & _ & Hn)|(Hj & _)]].
    + by rewrite <- Heq.
    + rewrite Hn in Hk. by destruct Hk.
    + apply aliases_canonical in Hj as [Hj _]. congruence.
Qed.

Lemma normalized_key_supplied (σ : components) (c : string) :
  aliases_get c = None ->
  is_Some (normalized E true σ !! c) <-> supplies σ c.
Proof.
  intros Hc. unfold normalized. split; [apply rename_all_origin|].
  intros [[v Hv]|(k & Ha & [v Hv])].
  - exists v. by apply rename_all_no_alias.
  - assert (k ∈ dict_keys E σ) as Hin by (apply dict_keys_elem; eauto).
    destruct (rename_all_settles (dict_keys E σ) σ k c Ha Hin) as [Hgone|Hc']; [|done].
    destruct (rename_all_renamed_or_kept (dict_keys E σ) σ k c v Ha Hv)
      as [Hkept|[_ Hren]]; [congruence|by eexists].
Qed.

(** After alias normalization a name without alias, so every canonical
    name, is a key exactly when the dict supplied it, as a key or under
    one of its raw keys. *)
Theorem normalized_has_key (σ : components) (c : string) :
  aliases_get c = None ->
  is_Some (normalized E true σ !! c) <-> supplies σ c.
Proof. apply normalized_key_supplied. Qed.

(** With alias normalization on, [minimal_components] holds exactly when
    the caller supplied a road together with a house number, a house or
    a postcode, each under its canonical name or under any of its
    aliases. *)
Theorem minimal_components_supplied (σ : components) :
  minimal_components (normalized E true σ) = true <->
  supplies σ "road" /\
  (supplies σ "house_number" \/ supplies σ "house" \/ supplies σ "postcode").
Proof.
  rewrite minimal_components_iff.
  rewrite !(normalized_key_supplied σ) by reflexivity.
  unfold ROAD, HOUSE_NUMBER, HOUSE, POSTCODE. tauto.
Qed.

Lemma render_template_no_first (splitter template : string) (tc : bool)
    (f : string -> string) (σ : components) (text : string) :
  render_template E splitter template
    (if tc then tag_components_dict E (id (f <$> σ)) else id (f <$> σ)) tc
  = Returned text ->
  σ !! "first" = None.
Proof.
  unfold render_template, id.
  destruct (dict_has "first" _) eqn:Hf; [done|]. intros _.
  apply dict_has_false in Hf. destruct tc.
  - unfold tag_components_dict in Hf. rewrite map_lookup_imap, lookup_fmap in Hf.
    by destruct (σ !! "first").
  - rewrite lookup_fmap in Hf. by destruct (σ !! "first").
Qed.

(** When [format_address] returns a string, the country has a record with
    an address template, the dict had the minimal components if they
    were asked for, and the dict has no key [first]. *)
Theorem format_address_returns_string
    (splitter : string) (config : rule_table) (country : string)
    (mo tc ra : bool) (σ : components) (text : string) :
  fst (format_address E splitter config country mo tc ra σ) = Returned (Some text) ->
  exists r t,
    config !! Py.upper country = Some (TemplateRecord r) /\
    rec_address_template r = Some t /\
    (mo = true -> minimal_components (normalized E ra σ) = true) /\
    normalized E ra σ !! "first" = None.
Proof.
  unfold format_address.
  destruct (config !! Py.upper country) as [[s|r]|] eqn:Hcfg; [| |done].
  { destruct s; cbn; done. }
  destruct (truthy (TemplateRecord r)); cbn [negb]; [|done].
  unfold getitem_address_template.
  destruct (rec_address_template r) as [t|] eqn:Ht; [|done].
  unfold mbind at 1, Mut_bind at 1, lift.
  unfold mbind at 1, Mut_bind at 1.
  assert ((if ra then replace_aliases E else mret ()) σ = (Returned tt, normalized E ra σ))
    as ->.
  { unfold normalized. destruct ra; [apply replace_aliases_run|reflexivity]. }
  unfold mbind at 1, Mut_bind at 1, gets.
  destruct (mo && negb (minimal_components (normalized E ra σ))) eqn:Hgate; [done|].
  unfold mbind at 1, Mut_bind at 1.
  destruct (apply_replacements_run E r (normalized E ra σ)) as (_ & _ & Hrun & _).
  cbv zeta in Hrun.
  destruct (apply_replacements E (TemplateRecord r) (normalized E ra σ))
    as [[[]|e] σ']; [|done].
  cbn [fst snd] in Hrun. rewrite Hrun by done.
  unfold mbind at 1, Mut_bind at 1. unfold mbind at 1, Mut_bind at 1.
  intros Hres. exists r, t.
  split; [done|]. split; [done|]. split.
  - intros ->. cbn [andb] in Hgate. by apply negb_false_iff in Hgate.
  - destruct (render_template _ _ _ _ _) as [rendered|e] eqn:Hrender; [|done].
    by eapply render_template_no_first.
Qed.

Lemma map_outcome_tagged (values : list string) :
  Forall (fun v => Forall (fun t => is_Some (Py.rsplit1 "/" t)) (Py.split_ws v)) values ->
  exists stripped, map_outcome (fun val => strip_component E val true) values
                   = Returned stripped.
Proof.
  induction 1 as [|v values Hv _ [stripped IH]]; [by eexists|].
  destruct (strip_component_tagged_between v Hv) as (_ & mid & _ & _ & _ & _ & _ & _ & Hr).
  cbn [map_outcome]. cbv beta.
  change (strip_component E v true) with (strip_component_tagged v).
  rewrite Hr, IH. by eexists.
Qed.


End Results.

Lemma minimal_components_supplied_witness :
  minimal_components (normalized Reference.collaborators true Demo.madrid) = true <->
  supplies Demo.madrid "road" /\
  (supplies Demo.madrid "house_number" \/ supplies Demo.madrid "house"
   \/ supplies Demo.madrid "postcode").
Proof.
  exact (minimal_components_supplied Reference.collaborators Demo.madrid).
Defined.

Lemma normalized_has_key_witness :
  is_Some (normalized Reference.collaborators true Demo.madrid !! "road")
  <-> supplies Demo.madrid "road".
Proof.
  apply (normalized_has_key Reference.collaborators Demo.madrid "road").
  reflexivity.
Defined.

Lemma format_address_returns_string_witness :
  exists r t,
    Demo.config !! Py.upper "es" = Some (TemplateRecord r) /\
    rec_address_template r = Some t /\
    (true = true ->
     minimal_components (normalized Reference.collaborators true Demo.madrid) = true) /\
    normalized Reference.collaborators true Demo.madrid !! "first" = None.
Proof.
  apply (format_address_returns_string Reference.collaborators " | " Demo.config "es"
           true false true Demo.madrid "Anticafe | Calle de la Union, 2 | 28013 Madrid").
  vm_compute. reflexivity.
Defined.

